(** * MongoDBBlockInputStream: a shallow embedding

    Model of [DB::MongoDBBlockInputStream]
    (dbms/include/DB/Dictionaries/MongoDBBlockInputStream.h): the stream that
    turns the documents of a MongoDB cursor into ClickHouse blocks.

    - BSON elements are an inductive type over the BSON tags; the accessors
      [numberInt], [numberLong], [number] follow the legacy C++ driver.
    - Doubles are IEEE binary64 values in the [spec_float] format of the
      Standard Library; conversions between integers and floats round as
      the hardware does (to nearest even, truncation toward zero for casts).
    - The cursor is the mutable state of a small state-and-error monad [M];
      every call to [more] and [next] is recorded in the cursor's log.
    - A block is a list of columns (name, data type, data). *)

From Stdlib Require Import ZArith List String Bool Lia Arith.
From Stdlib Require Import Floats.SpecFloat.
Import ListNotations.
Open Scope Z_scope.

(** [length] is the length of lists ([String] also exports one). *)
Abbreviation length := List.length (only parsing).

(* ------------------------------------------------------------------------- *)
(** ** Machine integers *)

(** Conversion of an integer to a [w]-bit unsigned type (C++ modular
    conversion). *)
Definition to_unsigned (w : Z) (z : Z) : Z := z mod 2 ^ w.

(** Conversion of an integer to a [w]-bit signed type (two's complement
    wrap-around, as gcc and clang implement it). *)
Definition to_signed (w : Z) (z : Z) : Z :=
  (z + 2 ^ (w - 1)) mod 2 ^ w - 2 ^ (w - 1).

(* ------------------------------------------------------------------------- *)
(** ** Floating point *)

(** binary64 ([double]) and binary32 ([float]) parameters. *)
Definition prec64 : Z := 53.
Definition emax64 : Z := 1024.
Definition prec32 : Z := 24.
Definition emax32 : Z := 128.

Definition double := spec_float.

(** [(double) z] for an integer [z]: rounding to nearest even. *)
Definition double_of_Z (z : Z) : double := binary_normalize prec64 emax64 z 0 false.

(** Narrowing a [double] to [float] (as [push_back] into a
    [PaddedPODArray<Float32>] does): rounding to nearest even on finite
    values; zeros, infinities and NaN are kept. *)
Definition float_of_double (d : double) : spec_float :=
  match d with
  | S754_finite s m e => binary_round prec32 emax32 s m e
  | _ => d
  end.

(** The integral part of a finite double, truncated toward zero. *)
Definition trunc_double (d : double) : option Z :=
  match d with
  | S754_zero _ => Some 0
  | S754_finite s m e =>
      let mag := if 0 <=? e then Z.pos m * 2 ^ e else Z.shiftr (Z.pos m) (- e) in
      Some (if s then - mag else mag)
  | _ => None
  end.

(** [(intN_t) d] for a double [d]. Out of range (or NaN, infinite) the
    conversion is undefined in C++; the x86-64 instruction [cvttsd2si]
    returns the "integer indefinite" value [-2^(w-1)], which is modelled. *)
Definition cast_double_signed (w : Z) (d : double) : Z :=
  match trunc_double d with
  | Some z => if (- 2 ^ (w - 1) <=? z) && (z <? 2 ^ (w - 1)) then z else - 2 ^ (w - 1)
  | None => - 2 ^ (w - 1)
  end.

(* ------------------------------------------------------------------------- *)
(** ** BSON elements (mongo::BSONElement) *)

Inductive BSONType :=
| EOO | NumberDouble | BString | Object | BArray | BinData | Undefined
| jstOID | Bool | BDate | jstNULL | RegEx | Code | Symbol | Timestamp
| NumberInt | NumberLong | MinKey | MaxKey.

(** [mongo::typeName]. *)
Definition typeName (t : BSONType) : string :=
  match t with
  | EOO => "EOO" | NumberDouble => "NumberDouble" | BString => "String"
  | Object => "Object" | BArray => "Array" | BinData => "BinData"
  | Undefined => "Undefined" | jstOID => "OID" | Bool => "Bool"
  | BDate => "Date" | jstNULL => "NULL" | RegEx => "RegEx" | Code => "Code"
  | Symbol => "Symbol" | Timestamp => "Timestamp" | NumberInt => "NumberInt"
  | NumberLong => "NumberLong" | MinKey => "MinKey" | MaxKey => "MaxKey"
  end.

(** A present BSON element. Payloads are kept for the tags the stream
    converts; a [Date_t] is the driver's [unsigned long long] count of
    milliseconds since the Unix epoch. *)
Inductive BSONElement :=
| VDouble (d : double)
| VString (s : string)
| VBool (b : bool)
| VDate (millis : N)
| VInt (z : Z)              (* NumberInt, a 32-bit value *)
| VLong (z : Z)             (* NumberLong, a 64-bit value *)
| VOther (t : BSONType).    (* any other tag, payload irrelevant here *)

(** [BSONElement::type]. *)
Definition elem_type (v : BSONElement) : BSONType :=
  match v with
  | VDouble _ => NumberDouble | VString _ => BString | VBool _ => Bool
  | VDate _ => BDate | VInt _ => NumberInt | VLong _ => NumberLong
  | VOther t => t
  end.

(** [BSONElement::isNumber]. *)
Definition isNumber (v : BSONElement) : bool :=
  match elem_type v with
  | NumberLong | NumberDouble | NumberInt => true
  | _ => false
  end.

(** [BSONElement::numberInt]: [(int)] of the stored number, 0 otherwise. *)
Definition numberInt (v : BSONElement) : Z :=
  match v with
  | VDouble d => cast_double_signed 32 d
  | VInt z => z
  | VLong z => to_signed 32 z
  | _ => 0
  end.

(** [BSONElement::numberLong]. *)
Definition numberLong (v : BSONElement) : Z :=
  match v with
  | VDouble d => cast_double_signed 64 d
  | VInt z => z
  | VLong z => z
  | _ => 0
  end.

(** [BSONElement::number] (= [numberDouble]). *)
Definition number (v : BSONElement) : double :=
  match v with
  | VDouble d => d
  | VInt z => double_of_Z z
  | VLong z => double_of_Z z
  | _ => S754_zero false
  end.

(** [BSONElement::boolean]. *)
Definition boolean (v : BSONElement) : bool :=
  match v with VBool b => b | _ => false end.

(** [Date_t::toTimeT]: [millis / 1000] converted to [time_t]. *)
Definition toTimeT (millis : N) : Z := to_signed 64 (Z.of_N (N.div millis 1000)).

(** A document: its fields in order. [row[name]] ([BSONObj::getField])
    returns the first field of that name, or the EOO element, for which
    [ok()] is false; [None] stands for that element. *)
Definition BSONObj := list (string * BSONElement).

Fixpoint getField (row : BSONObj) (name : string) : option BSONElement :=
  match row with
  | [] => None
  | (n, v) :: rest => if String.eqb n name then Some v else getField rest name
  end.

(* ------------------------------------------------------------------------- *)
(** ** Data types, columns and blocks *)

(** The ClickHouse data types a sample block can carry ([IDataType]). *)
Inductive DataType :=
| DataTypeUInt8 | DataTypeUInt16 | DataTypeUInt32 | DataTypeUInt64
| DataTypeInt8 | DataTypeInt16 | DataTypeInt32 | DataTypeInt64
| DataTypeFloat32 | DataTypeFloat64
| DataTypeString | DataTypeDate | DataTypeDateTime
| DataTypeArray (nested : DataType)
| DataTypeOther (type_name : string).   (* FixedString(N), Enum8, Tuple, ... *)

(** [IDataType::getName]. *)
Fixpoint getName (t : DataType) : string :=
  match t with
  | DataTypeUInt8 => "UInt8" | DataTypeUInt16 => "UInt16"
  | DataTypeUInt32 => "UInt32" | DataTypeUInt64 => "UInt64"
  | DataTypeInt8 => "Int8" | DataTypeInt16 => "Int16"
  | DataTypeInt32 => "Int32" | DataTypeInt64 => "Int64"
  | DataTypeFloat32 => "Float32" | DataTypeFloat64 => "Float64"
  | DataTypeString => "String" | DataTypeDate => "Date"
  | DataTypeDateTime => "DateTime"
  | DataTypeArray n => "Array(" ++ getName n ++ ")"
  | DataTypeOther s => s
  end.

(** [typeid_cast<const C *>(type) != nullptr]: the dynamic class of [t] is
    the class [c] (only the thirteen leaf classes are tested). *)
Definition typeid_cast (c t : DataType) : bool :=
  match c, t with
  | DataTypeUInt8, DataTypeUInt8 | DataTypeUInt16, DataTypeUInt16
  | DataTypeUInt32, DataTypeUInt32 | DataTypeUInt64, DataTypeUInt64
  | DataTypeInt8, DataTypeInt8 | DataTypeInt16, DataTypeInt16
  | DataTypeInt32, DataTypeInt32 | DataTypeInt64, DataTypeInt64
  | DataTypeFloat32, DataTypeFloat32 | DataTypeFloat64, DataTypeFloat64
  | DataTypeString, DataTypeString | DataTypeDate, DataTypeDate
  | DataTypeDateTime, DataTypeDateTime => true
  | _, _ => false
  end.

(** The elements a column can hold: [ColumnVector<T>] for the numeric
    types (Date is stored in a [ColumnUInt16], DateTime in a
    [ColumnUInt32]) and [ColumnString]. *)
Inductive Scalar :=
| CUInt8 (z : Z) | CUInt16 (z : Z) | CUInt32 (z : Z) | CUInt64 (z : Z)
| CInt8 (z : Z) | CInt16 (z : Z) | CInt32 (z : Z) | CInt64 (z : Z)
| CFloat32 (f : spec_float) | CFloat64 (f : double)
| CString (s : string).

Record ColumnWithTypeAndName := mkColumn {
  cname : string;
  ctype : DataType;
  column : list Scalar
}.

Definition Block := list ColumnWithTypeAndName.

(** [Block::cloneEmpty]: same names and types, no rows. *)
Definition cloneEmpty (b : Block) : Block :=
  map (fun c => mkColumn (cname c) (ctype c) []) b.

(** [Block::rows]: the size of the first column, 0 for a block without
    columns. *)
Definition rows (b : Block) : nat :=
  match b with
  | [] => O
  | c :: _ => List.length (column c)
  end.

(** [Block::columns]. *)
Definition columns (b : Block) : nat := List.length b.

(* ------------------------------------------------------------------------- *)
(** ** Exceptions and the cursor monad *)

Inductive ErrorCode := UNKNOWN_TYPE | TYPE_MISMATCH | CURSOR_ERROR.

Record Exception := mkException { message : string; code : ErrorCode }.

Inductive Result (A : Type) :=
| Ok (a : A)
| Err (e : Exception).
Arguments Ok {A} a.
Arguments Err {A} e.

(** A call made on the cursor. *)
Inductive CursorOp := OpMore | OpNext.

(** [mongo::DBClientCursor]: the documents it still has to deliver and the
    calls made on it so far. *)
Record Cursor := mkCursor { pending : list BSONObj; log : list CursorOp }.

(** Computations that use (and own) the cursor and may throw. *)
Definition M (A : Type) := Cursor -> Result A * Cursor.

Definition ret {A} (a : A) : M A := fun c => (Ok a, c).

Definition bind {A B} (m : M A) (k : A -> M B) : M B :=
  fun c => match m c with
           | (Ok a, c') => k a c'
           | (Err e, c') => (Err e, c')
           end.

Definition throw {A} (e : Exception) : M A := fun c => (Err e, c).

Definition lift {A} (r : Result A) : M A := fun c => (r, c).

Notation "x <- m ;; k" := (bind m (fun x => k))
  (at level 61, m at next level, right associativity).

(** [cursor->more()]. *)
Definition more : M bool :=
  fun c => (Ok (negb (match pending c with [] => true | _ => false end)),
            mkCursor (pending c) (log c ++ [OpMore])).

(** [cursor->next()]; the driver refuses it when no document is left. *)
Definition next : M BSONObj :=
  fun c => match pending c with
           | r :: rs => (Ok r, mkCursor rs (log c ++ [OpNext]))
           | [] => (Err (mkException "DBClientCursor next() called but more() is false" CURSOR_ERROR),
                    mkCursor [] (log c ++ [OpNext]))
           end.

(* ------------------------------------------------------------------------- *)
(** ** The stream *)

(** [enum struct value_type_t]; its enumerators are written
    [value_type_t.UInt8], ... as in the source. *)
Module value_type_t.
Inductive t :=
| UInt8 | UInt16 | UInt32 | UInt64 | Int8 | Int16 | Int32 | Int64
| Float32 | Float64 | String | Date | DateTime.
End value_type_t.

(** The members of [MongoDBBlockInputStream] other than the cursor (the
    cursor is the state of [M]). *)
Record Stream := mkStream {
  sample_block : Block;
  max_block_size : nat;
  types : list value_type_t.t;
  names : list string
}.

(** One iteration of the constructor's loop: the [typeid_cast] chain of
    lines 53-83. The branch meant for [Float64] (line 71) tests
    [DataTypeInt64] again, as the source does. *)
Definition value_type_of (type : DataType) : Result value_type_t.t :=
  if typeid_cast DataTypeUInt8 type then Ok value_type_t.UInt8
  else if typeid_cast DataTypeUInt16 type then Ok value_type_t.UInt16
  else if typeid_cast DataTypeUInt32 type then Ok value_type_t.UInt32
  else if typeid_cast DataTypeUInt64 type then Ok value_type_t.UInt64
  else if typeid_cast DataTypeInt8 type then Ok value_type_t.Int8
  else if typeid_cast DataTypeInt16 type then Ok value_type_t.Int16
  else if typeid_cast DataTypeInt32 type then Ok value_type_t.Int32
  else if typeid_cast DataTypeInt64 type then Ok value_type_t.Int64
  else if typeid_cast DataTypeFloat32 type then Ok value_type_t.Float32
  else if typeid_cast DataTypeInt64 type then Ok value_type_t.Float64
  else if typeid_cast DataTypeString type then Ok value_type_t.String
  else if typeid_cast DataTypeDate type then Ok value_type_t.Date
  else if typeid_cast DataTypeDateTime type then Ok value_type_t.DateTime
  else Err (mkException ("Unsupported type " ++ getName type) UNKNOWN_TYPE).

(** The constructor's loop over the columns of the sample block: the
    [types] and [names] it pushes, or the first exception. *)
Fixpoint bind_columns (cols : Block) : Result (list value_type_t.t * list string) :=
  match cols with
  | [] => Ok ([], [])
  | c :: rest =>
      match value_type_of (ctype c) with
      | Err e => Err e
      | Ok t =>
          match bind_columns rest with
          | Err e => Err e
          | Ok (ts, ns) => Ok (t :: ts, cname c :: ns)
          end
      end
  end.

(** [MongoDBBlockInputStream(cursor, sample_block, max_block_size)]. *)
Definition MongoDBBlockInputStream (sample_block : Block) (max_block_size : nat)
  : M Stream :=
  m <- more ;;
  if negb m then ret (mkStream sample_block max_block_size [] [])
  else
    tn <- lift (bind_columns sample_block) ;;
    ret (mkStream sample_block max_block_size (fst tn) (snd tn)).

(** [DateLUT::toDayNum]. *)
(** Modelled from the spec: [DateLUT] (libcommon) is not part of the
    sources; the spec describes the conversion as truncating the timestamp
    to a day-granularity day number since a fixed epoch (the Unix epoch). *)
Definition toDayNum (t : Z) : Z := t / 86400.

Definition type_mismatch (expected : string) (v : BSONElement) : Exception :=
  mkException ("Type mismatch, expected " ++ expected ++ ", got " ++ typeName (elem_type v))
              TYPE_MISMATCH.

(** [insertValue(column, type, value)]: the element appended to [column],
    or the exception. Each [insert] is [ColumnVector<T>::insert(const Field &)]
    reached by virtual dispatch: the argument becomes a [Field] (integers as
    64-bit, [bool] as [UInt64] 0/1, floats as [Float64]), which is read back as
    the column's nearest field type and narrowed to [T] by [push_back]. *)
Definition insertValue (col : list Scalar) (type : value_type_t.t) (value : BSONElement)
  : Result (list Scalar) :=
  match type with
  | value_type_t.UInt8 =>
      if negb (match elem_type value with Bool => true | _ => false end)
      then Err (type_mismatch "Bool" value)
      else Ok (col ++ [CUInt8 (to_unsigned 8 (if boolean value then 1 else 0))])
  | value_type_t.UInt16 =>
      if negb (isNumber value) then Err (type_mismatch "a number" value)
      else Ok (col ++ [CUInt16 (to_unsigned 16 (numberInt value))])
  | value_type_t.UInt32 =>
      if negb (isNumber value) then Err (type_mismatch "a number" value)
      else Ok (col ++ [CUInt32 (to_unsigned 32 (numberInt value))])
  | value_type_t.UInt64 =>
      if negb (isNumber value) then Err (type_mismatch "a number" value)
      else Ok (col ++ [CUInt64 (to_unsigned 64 (numberLong value))])
  | value_type_t.Int8 =>
      if negb (isNumber value) then Err (type_mismatch "a number" value)
      else Ok (col ++ [CInt8 (to_signed 8 (numberInt value))])
  | value_type_t.Int16 =>
      if negb (isNumber value) then Err (type_mismatch "a number" value)
      else Ok (col ++ [CInt16 (to_signed 16 (numberInt value))])
  | value_type_t.Int32 =>
      if negb (isNumber value) then Err (type_mismatch "a number" value)
      else Ok (col ++ [CInt32 (to_signed 32 (numberInt value))])
  | value_type_t.Int64 =>
      if negb (isNumber value) then Err (type_mismatch "a number" value)
      else Ok (col ++ [CInt64 (to_signed 64 (numberLong value))])
  | value_type_t.Float32 =>
      if negb (isNumber value) then Err (type_mismatch "a number" value)
      else Ok (col ++ [CFloat32 (float_of_double (number value))])
  | value_type_t.Float64 =>
      if negb (isNumber value) then Err (type_mismatch "a number" value)
      else Ok (col ++ [CFloat64 (number value)])
  | value_type_t.String =>
      match value with
      | VString s => Ok (col ++ [CString s])
      | _ => Err (type_mismatch "String" value)
      end
  | value_type_t.Date =>
      match value with
      | VDate ms => Ok (col ++ [CUInt16 (to_unsigned 16 (toDayNum (toTimeT ms)))])
      | _ => Err (type_mismatch "Date" value)
      end
  | value_type_t.DateTime =>
      match value with
      | VDate ms => Ok (col ++ [CUInt32 (to_unsigned 32 (toTimeT ms))])
      | _ => Err (type_mismatch "Date" value)
      end
  end.

(** [insertDefaultValue(column, type)]: [insertDefault] appends [T()]. *)
Definition insertDefaultValue (col : list Scalar) (type : value_type_t.t) : list Scalar :=
  match type with
  | value_type_t.UInt8 => col ++ [CUInt8 0]
  | value_type_t.UInt16 => col ++ [CUInt16 0]
  | value_type_t.UInt32 => col ++ [CUInt32 0]
  | value_type_t.UInt64 => col ++ [CUInt64 0]
  | value_type_t.Int8 => col ++ [CInt8 0]
  | value_type_t.Int16 => col ++ [CInt16 0]
  | value_type_t.Int32 => col ++ [CInt32 0]
  | value_type_t.Int64 => col ++ [CInt64 0]
  | value_type_t.Float32 => col ++ [CFloat32 (S754_zero false)]
  | value_type_t.Float64 => col ++ [CFloat64 (S754_zero false)]
  | value_type_t.String => col ++ [CString ""]
  | value_type_t.Date => col ++ [CUInt16 0]
  | value_type_t.DateTime => col ++ [CUInt32 0]
  end.

(** The body of the [for (idx ...)] loop of [readImpl] over one row: for
    each column, [insertValue] when [row[names[idx]]] is ok, otherwise
    [insertDefaultValue]. [types[idx]] and [names[idx]] are unchecked
    vector accesses; in every reachable state they have one entry per
    column (see [reachable_bound]). *)
Fixpoint insert_row (cols : Block) (types : list value_type_t.t) (names : list string)
  (row : BSONObj) : Result Block :=
  match cols, types, names with
  | c :: cs, t :: ts, n :: ns =>
      let r := match getField row n with
               | Some value => insertValue (column c) t value
               | None => Ok (insertDefaultValue (column c) t)
               end in
      match r with
      | Err e => Err e
      | Ok data =>
          match insert_row cs ts ns row with
          | Err e => Err e
          | Ok cs' => Ok (mkColumn (cname c) (ctype c) data :: cs')
          end
      end
  | _, _, _ => Ok cols
  end.

(** The [while (cursor->more())] loop of [readImpl]. Each iteration
    consumes one document, so [fuel] = one more than the number of
    documents left never runs out. *)
Fixpoint read_loop (fuel : nat) (s : Stream) (block : Block) (num_rows : nat) : M Block :=
  match fuel with
  | O => ret block
  | S fuel' =>
      m <- more ;;
      if negb m then ret block
      else
        row <- next ;;
        block' <- lift (insert_row block (types s) (names s) row) ;;
        let num_rows' := S num_rows in
        if Nat.eqb num_rows' (max_block_size s) then ret block'
        else read_loop fuel' s block' num_rows'
  end.

(** [readImpl()]: [{}] (the empty block, which ends the stream) when the
    cursor has nothing more, otherwise one block of up to
    [max_block_size] rows. *)
Definition readImpl (s : Stream) : M Block :=
  m <- more ;;
  if negb m then ret []
  else fun c => read_loop (S (List.length (pending c))) s (cloneEmpty (sample_block s)) O c.

(* ------------------------------------------------------------------------- *)
(** ** Driving the stream *)

(** [n] consecutive calls of [readImpl] (what [IProfilingBlockInputStream::read]
    forwards to). *)
Fixpoint produce (n : nat) (s : Stream) : M (list Block) :=
  match n with
  | O => ret []
  | S n' => b <- readImpl s ;; bs <- produce n' s ;; ret (b :: bs)
  end.

(** Reading blocks until the empty block that ends the stream (at most
    [fuel] calls); the empty block itself is not listed. *)
Fixpoint drain (fuel : nat) (s : Stream) : M (list Block) :=
  match fuel with
  | O => ret []
  | S fuel' =>
      b <- readImpl s ;;
      match b with
      | [] => ret []
      | _ => bs <- drain fuel' s ;; ret (b :: bs)
      end
  end.

(** The states a stream goes through: construction, then [readImpl] calls
    that did not throw. *)
Inductive reachable : Stream -> Cursor -> Prop :=
| reachable_init sb n c s c' :
    MongoDBBlockInputStream sb n c = (Ok s, c') -> reachable s c'
| reachable_step s c b c' :
    reachable s c -> readImpl s c = (Ok b, c') -> reachable s c'.

(** A document every column of the stream accepts: [insert_row] does not
    throw on it. *)
Definition row_ok (s : Stream) (row : BSONObj) : bool :=
  match insert_row (cloneEmpty (sample_block s)) (types s) (names s) row with
  | Ok _ => true
  | Err _ => false
  end.

(** The numeric kinds. *)
Definition is_numeric_kind (t : value_type_t.t) : bool :=
  match t with
  | value_type_t.UInt16 | value_type_t.UInt32 | value_type_t.UInt64
  | value_type_t.Int8 | value_type_t.Int16 | value_type_t.Int32
  | value_type_t.Int64 | value_type_t.Float32 | value_type_t.Float64 => true
  | _ => false
  end.

(** Spec side: the zero value of each kind ("numeric 0, empty string, or
    epoch-zero date/date-time"), in the column the kind is stored in. *)
Definition spec_zero_value (t : value_type_t.t) : Scalar :=
  match t with
  | value_type_t.UInt8 => CUInt8 0
  | value_type_t.UInt16 => CUInt16 0
  | value_type_t.UInt32 => CUInt32 0
  | value_type_t.UInt64 => CUInt64 0
  | value_type_t.Int8 => CInt8 0
  | value_type_t.Int16 => CInt16 0
  | value_type_t.Int32 => CInt32 0
  | value_type_t.Int64 => CInt64 0
  | value_type_t.Float32 => CFloat32 (S754_zero false)
  | value_type_t.Float64 => CFloat64 (S754_zero false)
  | value_type_t.String => CString ""
  | value_type_t.Date => CUInt16 (toDayNum 0)
  | value_type_t.DateTime => CUInt32 0
  end.

(** Spec side: the batch sizes for [k] records and batches of [n] rows:
    none for [k = 0], [[k]] for [k <= n], otherwise [ceil(k/n)] batches of
    [n] rows except the last, of [k mod n] rows ([n] when [k mod n = 0]). *)
Definition ceil_div (k n : nat) : nat := Nat.div (k + n - 1) n.

Definition claimed_sizes (k n : nat) : list nat :=
  if Nat.eqb k 0 then []
  else if Nat.leb k n then [k]
  else repeat n (ceil_div k n - 1)%nat ++ [if Nat.eqb (Nat.modulo k n) 0 then n else Nat.modulo k n].

(** The sizes of successive batches of at most [n] rows out of [k] rows. *)
Fixpoint chunk_sizes (fuel k n : nat) : list nat :=
  match fuel with
  | O => []
  | S fuel' => if Nat.eqb k 0 then [] else Nat.min k n :: chunk_sizes fuel' (k - n)%nat n
  end.

(** One cell of the [for (idx ...)] loop of [readImpl]: the column after
    [insertValue] when [row[names[idx]]] is ok, otherwise after
    [insertDefaultValue] (the value [r] computed in [insert_row]). *)
Definition insert_cell (col : list Scalar) (type : value_type_t.t) (name : string)
  (row : BSONObj) : Result (list Scalar) :=
  match getField row name with
  | Some value => insertValue col type value
  | None => Ok (insertDefaultValue col type)
  end.

(** One column filled record after record, in the order of the records:
    the column-wise reading of what [readImpl] does row by row. *)
Fixpoint convert_column (type : value_type_t.t) (name : string) (col : list Scalar)
  (rows : list BSONObj) : Result (list Scalar) :=
  match rows with
  | [] => Ok col
  | row :: rest =>
      match insert_cell col type name row with
      | Err e => Err e
      | Ok col' => convert_column type name col' rest
      end
  end.

(** The data of column [i] of a block (nothing when the block has no such
    column). *)
Definition column_at (b : Block) (i : nat) : list Scalar :=
  match nth_error b i with Some c => column c | None => [] end.

(* ========================================================================= *)
(** * Properties *)

(** ** Concrete runs *)

Example claimed_sizes_7_3 : claimed_sizes 7 3 = [3%nat; 3%nat; 1%nat].
Proof. reflexivity. Qed.

Example claimed_sizes_6_3 : claimed_sizes 6 3 = [3%nat; 3%nat].
Proof. reflexivity. Qed.

Example chunk_sizes_7_3 : chunk_sizes 7 7 3 = [3%nat; 3%nat; 1%nat].
Proof. reflexivity. Qed.

(** ** Binding the sample block *)

Lemma value_type_of_supported t :
  t <> DataTypeFloat64 ->
  (exists k, value_type_of t = Ok k) <->
  In t [DataTypeUInt8; DataTypeUInt16; DataTypeUInt32; DataTypeUInt64;
        DataTypeInt8; DataTypeInt16; DataTypeInt32; DataTypeInt64;
        DataTypeFloat32; DataTypeString; DataTypeDate; DataTypeDateTime].
Proof.
  intros Hf; split.
  - intros [k Hk]; destruct t; simpl in *; try discriminate; tauto.
  - intros Hin; simpl in Hin;
      repeat (destruct Hin as [<- | Hin]; [eexists; reflexivity |]); contradiction.
Qed.

Lemma value_type_of_err t e :
  value_type_of t = Err e -> e = mkException ("Unsupported type " ++ getName t) UNKNOWN_TYPE.
Proof. intros H; destruct t; inversion H; reflexivity. Qed.

Lemma bind_columns_err sb e :
  bind_columns sb = Err e ->
  exists col, In col sb /\ value_type_of (ctype col) = Err e.
Proof.
  induction sb as [| c rest IH]; simpl; [discriminate |].
  destruct (value_type_of (ctype c)) eqn:Ht.
  - destruct (bind_columns rest) as [[ts ns] | e'] eqn:Hr; [discriminate |].
    intros [= ->]. destruct (IH eq_refl) as [col [Hin Hcol]]. eauto.
  - intros [= ->]. eauto.
Qed.

Lemma bind_columns_none_err sb :
  (forall col, In col sb -> exists k, value_type_of (ctype col) = Ok k) ->
  exists ts ns, bind_columns sb = Ok (ts, ns).
Proof.
  induction sb as [| c rest IH]; simpl; intros H; [eauto |].
  destruct (H c (or_introl eq_refl)) as [k Hk]; rewrite Hk.
  destruct IH as [ts [ns Hr]]; [intros; apply H; auto |].
  rewrite Hr; eauto.
Qed.

Lemma bind_columns_lengths sb ts ns :
  bind_columns sb = Ok (ts, ns) -> length ts = length sb /\ length ns = length sb.
Proof.
  revert ts ns; induction sb as [| c rest IH]; simpl; intros ts ns.
  - intros [= <- <-]; auto.
  - destruct (value_type_of (ctype c)); [| discriminate].
    destruct (bind_columns rest) as [[ts' ns'] | e]; [| discriminate].
    intros [= <- <-]. destruct (IH ts' ns' eq_refl). simpl; auto.
Qed.

Lemma bind_columns_ok_all sb tn :
  bind_columns sb = Ok tn ->
  forall col, In col sb -> exists k, value_type_of (ctype col) = Ok k.
Proof.
  revert tn; induction sb as [| c rest IH]; simpl; intros tn H col Hin; [contradiction |].
  destruct (value_type_of (ctype c)) as [k |] eqn:Hk; [| discriminate].
  destruct (bind_columns rest) as [[ts ns] |] eqn:Hr; [| discriminate].
  destruct Hin as [<- | Hin]; eauto.
Qed.

(** ** Machine integers *)

Lemma to_signed_mod w z : 0 < w -> to_signed w z mod 2 ^ w = z mod 2 ^ w.
Proof.
  intros Hw; unfold to_signed.
  rewrite Zminus_mod, Zmod_mod, <- Zminus_mod.
  f_equal; ring.
Qed.

Lemma to_signed_range w z : 0 < w -> - 2 ^ (w - 1) <= to_signed w z < 2 ^ (w - 1).
Proof.
  intros Hw; unfold to_signed.
  assert (E : 2 ^ w = 2 * 2 ^ (w - 1)).
  { rewrite <- Z.pow_succ_r by lia. f_equal; lia. }
  rewrite E.
  pose proof (Z.mod_pos_bound (z + 2 ^ (w - 1)) (2 * 2 ^ (w - 1))).
  assert (0 < 2 ^ (w - 1)) by (apply Z.pow_pos_nonneg; lia).
  lia.
Qed.

Lemma to_signed_small w z : 0 < w -> - 2 ^ (w - 1) <= z < 2 ^ (w - 1) -> to_signed w z = z.
Proof.
  intros Hw Hz; unfold to_signed.
  assert (E : 2 ^ w = 2 * 2 ^ (w - 1)).
  { rewrite <- Z.pow_succ_r by lia. f_equal; lia. }
  rewrite E, Z.mod_small by lia. lia.
Qed.

(** [toTimeT] on a well-formed [Date_t] (an [unsigned long long]) is the
    number of whole seconds. *)
Lemma toTimeT_seconds ms : (ms < 2 ^ 64)%N -> toTimeT ms = Z.of_N ms / 1000.
Proof.
  intros Hms; unfold toTimeT.
  rewrite N2Z.inj_div.
  apply to_signed_small; [lia |].
  assert (0 <= Z.of_N ms < 2 ^ 64) by (split; [lia | apply N2Z.inj_lt in Hms; exact Hms]).
  split.
  - apply Z.le_trans with 0; [lia | apply Z.div_pos; lia].
  - apply Z.div_lt_upper_bound; [lia |]. simpl in *; lia.
Qed.

(** ** Construction *)

(** (C3, amended) When the cursor has a document at construction time, a
    column whose data type has no [value_type_t] makes the constructor throw
    [UNKNOWN_TYPE] "Unsupported type <name>" for such a column, after a
    single [more()] and without reading a document. When the cursor has no
    document, the constructor returns without binding any column and
    succeeds whatever the column types. *)
Theorem construct_unsupported_type sb n c :
  (pending c <> [] ->
   forall col, In col sb -> (forall k, value_type_of (ctype col) <> Ok k) ->
   exists d, In d (map ctype sb) /\ (forall k, value_type_of d <> Ok k) /\
     MongoDBBlockInputStream sb n c
     = (Err (mkException ("Unsupported type " ++ getName d) UNKNOWN_TYPE),
        mkCursor (pending c) (log c ++ [OpMore])))
  /\
  (pending c = [] ->
   MongoDBBlockInputStream sb n c = (Ok (mkStream sb n [] []), mkCursor [] (log c ++ [OpMore]))).
Proof.
  split.
  - intros Hc col Hin Hcol.
    unfold MongoDBBlockInputStream, bind, more, ret, lift; simpl.
    destruct (pending c) as [| r rs] eqn:Hp; [congruence |]; simpl.
    destruct (bind_columns sb) as [tn | e] eqn:Hb.
    + destruct (bind_columns_ok_all sb tn Hb col Hin) as [k Hk].
      exfalso; exact (Hcol k Hk).
    + destruct (bind_columns_err sb e Hb) as [col' [Hin' He]].
      exists (ctype col'); split; [apply in_map; exact Hin' |]; split.
      * rewrite He; discriminate.
      * rewrite (value_type_of_err _ _ He); reflexivity.
  - intros Hc. unfold MongoDBBlockInputStream, bind, more, ret; simpl.
    rewrite Hc; reflexivity.
Qed.

Lemma construct_unsupported_type_witness :
  (exists d,
     In d (map ctype [mkColumn "id" DataTypeUInt64 []; mkColumn "tags" (DataTypeArray DataTypeString) []]) /\
     (forall k, value_type_of d <> Ok k) /\
     MongoDBBlockInputStream
       [mkColumn "id" DataTypeUInt64 []; mkColumn "tags" (DataTypeArray DataTypeString) []] 1
       (mkCursor [[("id"%string, VInt 1)]] [])
     = (Err (mkException ("Unsupported type " ++ getName d) UNKNOWN_TYPE),
        mkCursor [[("id"%string, VInt 1)]] ([] ++ [OpMore]))) /\
  MongoDBBlockInputStream
    [mkColumn "id" DataTypeUInt64 []; mkColumn "tags" (DataTypeArray DataTypeString) []] 1
    (mkCursor [] [])
  = (Ok (mkStream
      [mkColumn "id" DataTypeUInt64 []; mkColumn "tags" (DataTypeArray DataTypeString) []]
      1 [] []), mkCursor [] ([] ++ [OpMore])).
Proof.
  split.
  - apply (proj1 (construct_unsupported_type
      [mkColumn "id" DataTypeUInt64 []; mkColumn "tags" (DataTypeArray DataTypeString) []] 1
      (mkCursor [[("id"%string, VInt 1)]] []))
      ltac:(discriminate) (mkColumn "tags" (DataTypeArray DataTypeString) [])).
    + simpl; auto.
    + intros k; discriminate.
  - apply (proj2 (construct_unsupported_type
      [mkColumn "id" DataTypeUInt64 []; mkColumn "tags" (DataTypeArray DataTypeString) []] 1
      (mkCursor [] []))).
    reflexivity.
Defined.

(** (C3, counterexample) A cursor without documents: the constructor
    succeeds although the sample block has an [Array(String)] column. *)
Lemma construct_empty_cursor_accepts_unsupported :
  MongoDBBlockInputStream [mkColumn "tags" (DataTypeArray DataTypeString) []] 1 (mkCursor [] [])
  = (Ok (mkStream [mkColumn "tags" (DataTypeArray DataTypeString) []] 1 [] []),
     mkCursor [] [OpMore]).
Proof. reflexivity. Qed.

(** (C4) A [Float64] column is not bound to [value_type_t.Float64]: the
    branch meant for it re-tests [DataTypeInt64], so as soon as the cursor
    has a document the constructor throws "Unsupported type Float64". *)
Theorem float64_column_rejected name n c :
  pending c <> [] ->
  MongoDBBlockInputStream [mkColumn name DataTypeFloat64 []] n c
  = (Err (mkException "Unsupported type Float64" UNKNOWN_TYPE),
     mkCursor (pending c) (log c ++ [OpMore])).
Proof.
  intros Hc. unfold MongoDBBlockInputStream, bind, more, lift; simpl.
  destruct (pending c); [congruence | reflexivity].
Qed.

Lemma float64_column_rejected_witness :
  pending (mkCursor [[("price"%string, VDouble (S754_finite false 5 (-1)))]] []) <> [] /\
  MongoDBBlockInputStream [mkColumn "price" DataTypeFloat64 []] 1
    (mkCursor [[("price"%string, VDouble (S754_finite false 5 (-1)))]] [])
  = (Err (mkException "Unsupported type Float64" UNKNOWN_TYPE),
     mkCursor [[("price"%string, VDouble (S754_finite false 5 (-1)))]] ([] ++ [OpMore])).
Proof.
  split; [discriminate |].
  apply (float64_column_rejected "price" 1
           (mkCursor [[("price"%string, VDouble (S754_finite false 5 (-1)))]] [])).
  discriminate.
Defined.

(** ** Coercing one value *)

(** (C5) A [UInt8] column takes booleans only: any other tag throws
    [TYPE_MISMATCH] "expected Bool"; [true] appends 1 and [false] appends 0. *)
Theorem uint8_column_is_boolean col v :
  (elem_type v <> Bool -> insertValue col value_type_t.UInt8 v = Err (type_mismatch "Bool" v)) /\
  insertValue col value_type_t.UInt8 (VBool true) = Ok (col ++ [CUInt8 1]) /\
  insertValue col value_type_t.UInt8 (VBool false) = Ok (col ++ [CUInt8 0]).
Proof.
  split; [| split; reflexivity].
  intros Hv; simpl; destruct (elem_type v) eqn:E; simpl;
    first [reflexivity | exfalso; now apply Hv].
Qed.

Lemma uint8_column_is_boolean_witness :
  insertValue [] value_type_t.UInt8 (VInt 1) = Err (type_mismatch "Bool" (VInt 1)) /\
  insertValue [] value_type_t.UInt8 (VBool true) = Ok ([] ++ [CUInt8 1]) /\
  insertValue [] value_type_t.UInt8 (VBool false) = Ok ([] ++ [CUInt8 0]).
Proof.
  destruct (uint8_column_is_boolean [] (VInt 1)) as [H1 [H2 H3]].
  split; [apply H1; discriminate | split; assumption].
Defined.

(** (C8, amended) Date and DateTime columns take BSON dates only. For a
    date of [ms] milliseconds (an [unsigned long long]) and [T = ms / 1000]
    whole seconds, a Date column gets the day number of [T] modulo 2^16 and
    a DateTime column gets [T] modulo 2^32; within the column ranges these
    are the day number and [T] themselves. *)
Theorem date_columns_coerce col v :
  (elem_type v <> BDate ->
   insertValue col value_type_t.Date v = Err (type_mismatch "Date" v) /\
   insertValue col value_type_t.DateTime v = Err (type_mismatch "Date" v)) /\
  (forall ms, (ms < 2 ^ 64)%N ->
   let T := Z.of_N ms / 1000 in
   insertValue col value_type_t.Date (VDate ms) = Ok (col ++ [CUInt16 (toDayNum T mod 2 ^ 16)]) /\
   insertValue col value_type_t.DateTime (VDate ms) = Ok (col ++ [CUInt32 (T mod 2 ^ 32)]) /\
   (toDayNum T < 2 ^ 16 -> insertValue col value_type_t.Date (VDate ms) = Ok (col ++ [CUInt16 (toDayNum T)])) /\
   (T < 2 ^ 32 -> insertValue col value_type_t.DateTime (VDate ms) = Ok (col ++ [CUInt32 T]))).
Proof.
  split.
  - intros Hv; destruct v; simpl in Hv |- *; try congruence; split; reflexivity.
  - intros ms Hms T.
    assert (HT : 0 <= T) by (apply Z.div_pos; lia).
    assert (HD : 0 <= toDayNum T) by (unfold toDayNum; apply Z.div_pos; lia).
    simpl; unfold to_unsigned; rewrite (toTimeT_seconds ms Hms); fold T.
    repeat split; intros Hlt; rewrite Z.mod_small by lia; reflexivity.
Qed.

Lemma date_columns_coerce_witness :
  (insertValue [] value_type_t.Date (VInt 5) = Err (type_mismatch "Date" (VInt 5)) /\
   insertValue [] value_type_t.DateTime (VInt 5) = Err (type_mismatch "Date" (VInt 5))) /\
  insertValue [] value_type_t.Date (VDate 1700000000000) = Ok ([] ++ [CUInt16 19675]) /\
  insertValue [] value_type_t.DateTime (VDate 1700000000000) = Ok ([] ++ [CUInt32 1700000000]).
Proof.
  destruct (date_columns_coerce [] (VInt 5)) as [H1 _].
  destruct (date_columns_coerce [] (VDate 1700000000000)) as [_ H2].
  split; [apply H1; discriminate |].
  destruct (H2 1700000000000%N ltac:(vm_compute; reflexivity)) as [_ [_ [H3 H4]]].
  split; [apply H3; vm_compute; reflexivity | apply H4; vm_compute; reflexivity].
Defined.

(** (C8, counterexample) A date [2^32] seconds after the epoch (year 2106)
    is stored as 0 in a DateTime column, not as its [2^32] seconds. *)
Lemma datetime_past_2106_wraps :
  Z.of_N (2 ^ 32 * 1000) / 1000 = 2 ^ 32 /\
  insertValue [] value_type_t.DateTime (VDate (2 ^ 32 * 1000)) = Ok [CUInt32 0].
Proof. split; vm_compute; reflexivity. Qed.

(** Every numeric kind rejects a value that is not a BSON number (a string
    in particular, never parsed) with [TYPE_MISMATCH]
    "Type mismatch, expected a number, got <tag>". *)
Lemma numeric_kind_rejects_non_number col t v :
  is_numeric_kind t = true -> isNumber v = false ->
  insertValue col t v = Err (type_mismatch "a number" v).
Proof. intros Ht Hv; destruct t; try discriminate Ht; unfold insertValue; rewrite Hv; reflexivity. Qed.

(** (C9, counterexample) The exception for a string in a UInt16 column and
    in an Int64 column is the same: it names "a number", not the kind. *)
Lemma numeric_mismatch_does_not_name_kind :
  insertValue [] value_type_t.UInt16 (VString "42")
  = Err (mkException "Type mismatch, expected a number, got String" TYPE_MISMATCH) /\
  insertValue [] value_type_t.Int64 (VString "42")
  = Err (mkException "Type mismatch, expected a number, got String" TYPE_MISMATCH).
Proof. split; reflexivity. Qed.

(** (C10) Values are narrowed by wrap-around: UInt16, Int8, Int16 and Int32
    columns store [numberInt] (the value truncated to a 32-bit [int])
    reduced modulo [2^w] into the column's range; a Date column stores the
    day number modulo [2^16], a DateTime column [toTimeT] modulo [2^32]. *)
Theorem narrowing_wraps col v ms :
  isNumber v = true ->
  insertValue col value_type_t.UInt16 v = Ok (col ++ [CUInt16 (numberInt v mod 2 ^ 16)]) /\
  (exists x, insertValue col value_type_t.Int8 v = Ok (col ++ [CInt8 x]) /\
     x mod 2 ^ 8 = numberInt v mod 2 ^ 8 /\ - 2 ^ 7 <= x < 2 ^ 7) /\
  (exists x, insertValue col value_type_t.Int16 v = Ok (col ++ [CInt16 x]) /\
     x mod 2 ^ 16 = numberInt v mod 2 ^ 16 /\ - 2 ^ 15 <= x < 2 ^ 15) /\
  (exists x, insertValue col value_type_t.Int32 v = Ok (col ++ [CInt32 x]) /\
     x mod 2 ^ 32 = numberInt v mod 2 ^ 32 /\ - 2 ^ 31 <= x < 2 ^ 31) /\
  insertValue col value_type_t.Date (VDate ms)
    = Ok (col ++ [CUInt16 (toDayNum (toTimeT ms) mod 2 ^ 16)]) /\
  insertValue col value_type_t.DateTime (VDate ms)
    = Ok (col ++ [CUInt32 (toTimeT ms mod 2 ^ 32)]).
Proof.
  intros Hv; simpl; rewrite Hv; simpl.
  split; [reflexivity |].
  split; [eexists; split; [reflexivity | split; [apply to_signed_mod; lia | apply (to_signed_range 8); lia]] |].
  split; [eexists; split; [reflexivity | split; [apply to_signed_mod; lia | apply (to_signed_range 16); lia]] |].
  split; [eexists; split; [reflexivity | split; [apply to_signed_mod; lia | apply (to_signed_range 32); lia]] |].
  split; reflexivity.
Qed.

Lemma narrowing_wraps_witness :
  insertValue [] value_type_t.UInt16 (VInt 70000) = Ok ([] ++ [CUInt16 4464]) /\
  insertValue [] value_type_t.Date (VDate (65537 * 86400000))
    = Ok ([] ++ [CUInt16 (toDayNum (toTimeT (65537 * 86400000)) mod 2 ^ 16)]).
Proof.
  destruct (narrowing_wraps [] (VInt 70000) (65537 * 86400000) eq_refl) as [H1 [_ [_ [_ [H2 _]]]]].
  split; [exact H1 | exact H2].
Defined.

(** ** One row *)

(** [insertValue] appends what it appends to an empty column; its
    exception does not depend on the column. *)
Lemma insertValue_append col t v :
  insertValue col t v =
  match insertValue [] t v with Ok l => Ok (col ++ l) | Err e => Err e end.
Proof. destruct t; destruct v as [| | | | | | []]; reflexivity. Qed.

Lemma insertDefaultValue_append col t :
  insertDefaultValue col t = col ++ [spec_zero_value t].
Proof. destruct t; reflexivity. Qed.

Lemma insertValue_ok_length col t v col' :
  insertValue col t v = Ok col' -> length col' = S (length col).
Proof.
  rewrite insertValue_append.
  destruct t; destruct v as [| | | | | | []]; simpl; intros H; inversion H;
    rewrite length_app; simpl; lia.
Qed.

(** Whether [insert_row] throws, and what, depends only on the number of
    columns, not on their contents. *)
Lemma insert_row_err_indep b1 b2 ts ns row e :
  length b1 = length b2 ->
  insert_row b1 ts ns row = Err e -> insert_row b2 ts ns row = Err e.
Proof.
  revert b2 ts ns; induction b1 as [| c1 r1 IH]; intros [| c2 r2] ts ns Hl; simpl in *;
    try discriminate.
  destruct ts as [| t ts]; [discriminate |]. destruct ns as [| n ns]; [discriminate |].
  destruct (getField row n) as [v |].
  - rewrite (insertValue_append (column c1)), (insertValue_append (column c2)).
    destruct (insertValue [] t v) as [l | e']; [| auto].
    destruct (insert_row r1 ts ns row) eqn:Hr; [discriminate |].
    intros [= ->]. rewrite (IH r2 ts ns ltac:(lia) Hr). reflexivity.
  - destruct (insert_row r1 ts ns row) eqn:Hr; [discriminate |].
    intros [= ->]. rewrite (IH r2 ts ns ltac:(lia) Hr). reflexivity.
Qed.

Lemma insert_row_ok_indep b1 b2 ts ns row b1' :
  length b1 = length b2 ->
  insert_row b1 ts ns row = Ok b1' -> exists b2', insert_row b2 ts ns row = Ok b2'.
Proof.
  intros Hl H1. destruct (insert_row b2 ts ns row) as [b2' | e] eqn:H2; [eauto |].
  rewrite (insert_row_err_indep b2 b1 ts ns row e ltac:(lia) H2) in H1. discriminate.
Qed.

(** A row that went in adds one element to every column. *)
Lemma insert_row_ok_shape b ts ns row b' :
  length ts = length b -> length ns = length b ->
  insert_row b ts ns row = Ok b' ->
  length b' = length b /\
  Forall2 (fun c c' => length (column c') = S (length (column c))) b b'.
Proof.
  revert ts ns b'; induction b as [| c r IH]; intros [| t ts] [| n ns] b' Ht Hn; simpl in *;
    try discriminate.
  - intros [= <-]; auto.
  - destruct (match getField row n with
              | Some value => insertValue (column c) t value
              | None => Ok (insertDefaultValue (column c) t)
              end) as [data | e] eqn:Hd; [| discriminate].
    destruct (insert_row r ts ns row) as [r' | e] eqn:Hr; [| discriminate].
    intros [= <-].
    destruct (IH ts ns r' ltac:(lia) ltac:(lia) Hr) as [Hl Hf].
    split; [simpl; lia |]. constructor; [| exact Hf]. simpl.
    destruct (getField row n).
    + exact (insertValue_ok_length _ _ _ _ Hd).
    + inversion Hd. rewrite insertDefaultValue_append, length_app. simpl; lia.
Qed.

(** (C7) A field missing from the document puts the zero value of its
    kind at the end of its column, whatever the other fields of the
    document hold. *)
Theorem absent_field_gets_zero_value b ts ns row b' i c t n :
  insert_row b ts ns row = Ok b' ->
  nth_error b i = Some c -> nth_error ts i = Some t -> nth_error ns i = Some n ->
  getField row n = None ->
  exists c', nth_error b' i = Some c' /\ column c' = column c ++ [spec_zero_value t].
Proof.
  revert ts ns b' i; induction b as [| c0 r IH]; intros ts ns b' i Hrow Hb Ht Hn Habs.
  - destruct i; discriminate.
  - destruct ts as [| t0 ts]; [destruct i; discriminate |].
    destruct ns as [| n0 ns]; [destruct i; discriminate |].
    simpl in Hrow.
    destruct (match getField row n0 with
              | Some value => insertValue (column c0) t0 value
              | None => Ok (insertDefaultValue (column c0) t0)
              end) as [data | e] eqn:Hd; [| discriminate].
    destruct (insert_row r ts ns row) as [r' | e] eqn:Hr; [| discriminate].
    injection Hrow as <-.
    destruct i as [| i]; simpl in Hb, Ht, Hn |- *.
    + injection Hb as <-. injection Ht as <-. injection Hn as <-.
      rewrite Habs in Hd. injection Hd as <-.
      eexists; split; [reflexivity | apply insertDefaultValue_append].
    + exact (IH ts ns r' i Hr Hb Ht Hn Habs).
Qed.

Lemma absent_field_gets_zero_value_witness :
  exists c',
    nth_error [mkColumn "id" DataTypeUInt32 [CUInt32 1; CUInt32 2];
               mkColumn "name" DataTypeString [CString "a"; CString ""];
               mkColumn "joined" DataTypeDate [CUInt16 100; CUInt16 200]] 1 = Some c' /\
    column c' = [CString "a"] ++ [spec_zero_value value_type_t.String].
Proof.
  apply (absent_field_gets_zero_value
    [mkColumn "id" DataTypeUInt32 [CUInt32 1]; mkColumn "name" DataTypeString [CString "a"];
     mkColumn "joined" DataTypeDate [CUInt16 100]]
    [value_type_t.UInt32; value_type_t.String; value_type_t.Date] ["id"; "name"; "joined"]%string
    [("id"%string, VInt 2); ("joined"%string, VDate 17280000000)]
    [mkColumn "id" DataTypeUInt32 [CUInt32 1; CUInt32 2];
     mkColumn "name" DataTypeString [CString "a"; CString ""];
     mkColumn "joined" DataTypeDate [CUInt16 100; CUInt16 200]]
    1 (mkColumn "name" DataTypeString [CString "a"]) value_type_t.String "name"%string);
    vm_compute; reflexivity.
Defined.

Lemma Forall2_column_succ (b b' : Block) (num : nat) :
  Forall2 (fun c c' => length (column c') = S (length (column c))) b b' ->
  Forall (fun col => length (column col) = num) b ->
  Forall (fun col => length (column col) = S num) b'.
Proof.
  induction 1 as [| c c' r r' Hc Hr IH]; intros Hf; [constructor |].
  inversion Hf; subst. constructor; [lia | auto].
Qed.

Lemma cloneEmpty_length b : length (cloneEmpty b) = length b.
Proof. apply length_map. Qed.

Lemma row_ok_insert s row block :
  row_ok s row = true -> length block = length (sample_block s) ->
  exists block', insert_row block (types s) (names s) row = Ok block'.
Proof.
  unfold row_ok. destruct (insert_row (cloneEmpty (sample_block s)) (types s) (names s) row)
    as [x |] eqn:H; [| discriminate].
  intros _ Hl. apply (insert_row_ok_indep (cloneEmpty (sample_block s)) block _ _ _ x); [| exact H].
  rewrite cloneEmpty_length; lia.
Qed.

(** ** The reading loop *)

Section ReadLoop.
Variable s : Stream.

(** Documents that all go in: the loop stops after [max_block_size]
    of them or when the cursor runs out. *)
Lemma read_loop_batch : forall docs fuel block num l,
  (length docs < fuel)%nat -> Forall (fun r => row_ok s r = true) docs ->
  length (types s) = length block -> length (names s) = length block ->
  length block = length (sample_block s) ->
  Forall (fun col => length (column col) = num) block ->
  (num < max_block_size s)%nat ->
  exists b c', read_loop fuel s block num (mkCursor docs l) = (Ok b, c') /\
    pending c' = skipn (max_block_size s - num) docs /\ length b = length block /\
    Forall (fun col => length (column col) = num + Nat.min (length docs) (max_block_size s - num))%nat b.
Proof.
  induction docs as [| r rs IH]; intros fuel block num l Hf Hok Ht Hn Hb Hcol Hnum;
    (destruct fuel as [| f]; [simpl in Hf; lia |]).
  - exists block, (mkCursor [] (l ++ [OpMore])). simpl.
    split; [reflexivity |]. rewrite skipn_nil. split; [reflexivity |]. split; [reflexivity |].
    eapply Forall_impl; [| exact Hcol]. intros a Ha; simpl in *; lia.
  - inversion Hok as [| ? ? Hr Hrs]; subst.
    destruct (row_ok_insert s r block Hr Hb) as [block' Hins].
    destruct (insert_row_ok_shape block (types s) (names s) r block' Ht Hn Hins) as [Hl' Hf2].
    pose proof (Forall2_column_succ _ _ _ Hf2 Hcol) as Hcol'.
    cbn [read_loop]; unfold bind, more, next, lift, ret; cbn [pending log negb]; rewrite Hins.
    destruct (Nat.eqb (S num) (max_block_size s)) eqn:Heq.
    + apply Nat.eqb_eq in Heq.
      exists block', (mkCursor rs ((l ++ [OpMore]) ++ [OpNext])).
      split; [reflexivity |]. rewrite <- Heq. replace (S num - num)%nat with 1%nat by lia.
      split; [reflexivity |]. split; [lia |].
      eapply Forall_impl; [| exact Hcol']. intros a Ha; simpl in *; lia.
    + apply Nat.eqb_neq in Heq.
      destruct (IH f block' (S num) ((l ++ [OpMore]) ++ [OpNext])) as [b [c' [Hrun [Hp [Hlb Hfb]]]]];
        try (simpl in Hf; lia); try assumption; try lia.
      exists b, c'. split; [exact Hrun |].
      replace (max_block_size s - num)%nat with (S (max_block_size s - S num)) by lia.
      split; [exact Hp |]. split; [lia |].
      eapply Forall_impl; [| exact Hfb]. intros a Ha; simpl in *; lia.
Qed.

(** Whatever the documents, a loop that did not throw returns one column
    per column it started with, all of the same length, between the rows
    it started with and [max_block_size]; with a document left (and fuel)
    it added at least one row. *)
Lemma read_loop_shape : forall fuel block num c b c',
  read_loop fuel s block num c = (Ok b, c') ->
  length (types s) = length block -> length (names s) = length block ->
  Forall (fun col => length (column col) = num) block ->
  (num < max_block_size s)%nat ->
  length b = length block /\
  exists k, (num <= k <= max_block_size s)%nat /\ Forall (fun col => length (column col) = k) b /\
    (pending c <> [] -> (0 < fuel)%nat -> (num < k)%nat).
Proof.
  induction fuel as [| f IH]; intros block num [p l] b c' Hrun Ht Hn Hcol Hnum.
  - simpl in Hrun. injection Hrun as <- _. split; [reflexivity |].
    exists num. split; [lia |]. split; [exact Hcol |]. intros _ H0; lia.
  - destruct p as [| r rs].
    + simpl in Hrun. injection Hrun as <- _. split; [reflexivity |].
      exists num. split; [lia |]. split; [exact Hcol |]. intros H; simpl in H; congruence.
    + cbn [read_loop] in Hrun; unfold bind, more, next, lift, ret in Hrun;
        cbn [pending log negb] in Hrun.
      destruct (insert_row block (types s) (names s) r) as [block' | e] eqn:Hins;
        [| discriminate].
      destruct (insert_row_ok_shape block (types s) (names s) r block' Ht Hn Hins) as [Hl' Hf2].
      pose proof (Forall2_column_succ _ _ _ Hf2 Hcol) as Hcol'.
      destruct (Nat.eqb (S num) (max_block_size s)) eqn:Heq.
      * apply Nat.eqb_eq in Heq. injection Hrun as <- _.
        split; [exact Hl' |]. exists (S num). split; [lia |]. split; [exact Hcol' | intros; lia].
      * apply Nat.eqb_neq in Heq.
        destruct (IH block' (S num) _ b c' Hrun ltac:(lia) ltac:(lia) Hcol' ltac:(lia))
          as [Hlb [k [Hk [Hfk _]]]].
        split; [lia |]. exists k. split; [lia |]. split; [exact Hfk | intros; lia].
Qed.

(** A document that does not go in, reached before the batch is full,
    makes the whole loop throw: the rows already added are lost. *)
Lemma read_loop_error : forall good fuel block num l bad rest e,
  (length good < fuel)%nat -> Forall (fun r => row_ok s r = true) good ->
  insert_row (cloneEmpty (sample_block s)) (types s) (names s) bad = Err e ->
  length (types s) = length block -> length (names s) = length block ->
  length block = length (sample_block s) ->
  (num + length good < max_block_size s)%nat ->
  fst (read_loop fuel s block num (mkCursor (good ++ bad :: rest) l)) = Err e.
Proof.
  induction good as [| r rs IH]; intros fuel block num l bad rest e Hf Hok Hbad Ht Hn Hb Hnum;
    (destruct fuel as [| f]; [simpl in Hf; lia |]).
  - cbn [read_loop app]; unfold bind, more, next, lift, ret; cbn [pending log negb].
    rewrite (insert_row_err_indep (cloneEmpty (sample_block s)) block _ _ _ e
               ltac:(rewrite cloneEmpty_length; lia) Hbad).
    reflexivity.
  - inversion Hok as [| ? ? Hr Hrs]; subst.
    destruct (row_ok_insert s r block Hr Hb) as [block' Hins].
    destruct (insert_row_ok_shape block (types s) (names s) r block' Ht Hn Hins) as [Hl' _].
    cbn [read_loop app]; unfold bind, more, next, lift, ret; cbn [pending log negb].
    rewrite Hins.
    assert (Heq : Nat.eqb (S num) (max_block_size s) = false) by (apply Nat.eqb_neq; simpl in Hnum; lia).
    rewrite Heq.
    apply IH; simpl in *; try assumption; lia.
Qed.

End ReadLoop.

Lemma read_loop_length s : forall fuel block num c b c',
  read_loop fuel s block num c = (Ok b, c') ->
  length (types s) = length block -> length (names s) = length block ->
  length b = length block.
Proof.
  induction fuel as [| f IH]; intros block num [p l] b c' Hrun Ht Hn.
  - simpl in Hrun. injection Hrun as <- _. reflexivity.
  - destruct p as [| r rs].
    + simpl in Hrun. injection Hrun as <- _. reflexivity.
    + cbn [read_loop] in Hrun; unfold bind, more, next, lift, ret in Hrun;
        cbn [pending log negb] in Hrun.
      destruct (insert_row block (types s) (names s) r) as [block' | e] eqn:Hins;
        [| discriminate].
      destruct (insert_row_ok_shape block (types s) (names s) r block' Ht Hn Hins) as [Hl' _].
      destruct (Nat.eqb (S num) (max_block_size s)).
      * injection Hrun as <- _. exact Hl'.
      * rewrite <- Hl'. apply (IH block' (S num) _ b c' Hrun); lia.
Qed.

(** ** readImpl *)

Lemma readImpl_exhausted s l :
  readImpl s (mkCursor [] l) = (Ok [], mkCursor [] (l ++ [OpMore])).
Proof. reflexivity. Qed.

Lemma readImpl_more s r rs l :
  readImpl s (mkCursor (r :: rs) l)
  = read_loop (S (length (r :: rs))) s (cloneEmpty (sample_block s)) O
      (mkCursor (r :: rs) (l ++ [OpMore])).
Proof. reflexivity. Qed.

Lemma cloneEmpty_rows b : Forall (fun col => length (column col) = O) (cloneEmpty b).
Proof. induction b; constructor; auto. Qed.

Lemma Forall_skipn_row {A} (P : A -> Prop) n l : Forall P l -> Forall P (skipn n l).
Proof.
  revert l; induction n as [| n IH]; intros [| x l] H; simpl; auto.
  inversion H; auto.
Qed.

(** Documents that all go in: one block of [min (length docs) n] rows. *)
Lemma readImpl_batch s docs l :
  docs <> [] ->
  length (types s) = length (sample_block s) -> length (names s) = length (sample_block s) ->
  (0 < max_block_size s)%nat -> Forall (fun r => row_ok s r = true) docs ->
  exists b c', readImpl s (mkCursor docs l) = (Ok b, c') /\
    pending c' = skipn (max_block_size s) docs /\ length b = length (sample_block s) /\
    Forall (fun col => length (column col) = Nat.min (length docs) (max_block_size s)) b.
Proof.
  intros Hd Ht Hn Hpos Hok. destruct docs as [| r rs]; [congruence |].
  rewrite readImpl_more.
  destruct (read_loop_batch s (r :: rs) (S (length (r :: rs))) (cloneEmpty (sample_block s)) O
              (l ++ [OpMore])) as [b [c' [Hrun [Hp [Hl Hf]]]]];
    rewrite ?cloneEmpty_length; try lia; try assumption; try apply cloneEmpty_rows.
  exists b, c'. rewrite Nat.sub_0_r in Hp, Hf. rewrite cloneEmpty_length in Hl.
  repeat split; assumption.
Qed.

(** ** Reachable states *)

(** Once the cursor had a document the columns are bound: [types] and
    [names] are what the constructor computed. *)
Lemma reachable_bound s c :
  reachable s c -> pending c = [] \/ bind_columns (sample_block s) = Ok (types s, names s).
Proof.
  induction 1 as [sb n [p l] s c' Hc | s [p l] b c' Hr IH Hstep].
  - destruct p as [| r rs].
    + left. injection Hc as <- <-. reflexivity.
    + right. unfold MongoDBBlockInputStream, bind, more, lift, ret in Hc; simpl in Hc.
      destruct (bind_columns sb) as [[ts ns] | e] eqn:Hb; [| discriminate].
      injection Hc as <- _. exact Hb.
  - destruct IH as [Hp | Hb]; [| right; exact Hb].
    simpl in Hp; subst p. rewrite readImpl_exhausted in Hstep.
    injection Hstep as _ <-. left; reflexivity.
Qed.

Lemma reachable_lengths s c :
  reachable s c -> pending c <> [] ->
  length (types s) = length (sample_block s) /\ length (names s) = length (sample_block s).
Proof.
  intros Hr Hp. destruct (reachable_bound s c Hr) as [H | Hb]; [congruence |].
  exact (bind_columns_lengths _ _ _ Hb).
Qed.

Lemma produce_exhausted s : forall m l,
  produce m s (mkCursor [] l) = (Ok (repeat [] m), mkCursor [] (l ++ repeat OpMore m)).
Proof.
  induction m as [| m IH]; intros l; simpl.
  - rewrite app_nil_r. reflexivity.
  - unfold bind at 1. rewrite readImpl_exhausted.
    unfold bind at 1. rewrite IH. rewrite <- app_assoc. reflexivity.
Qed.

(** ** Batch sizes *)

Lemma claimed_sizes_step k n :
  (0 < k)%nat -> (0 < n)%nat ->
  claimed_sizes k n = Nat.min k n :: claimed_sizes (k - n) n.
Proof.
  intros Hk Hn. unfold claimed_sizes at 1.
  destruct (Nat.eqb_spec k 0) as [| _]; [lia |].
  destruct (Nat.leb_spec k n).
  - replace (k - n)%nat with O by lia. rewrite Nat.min_l by lia. reflexivity.
  - remember (k - n)%nat as j eqn:Hj.
    assert (Hceil : ceil_div k n = S (ceil_div j n)).
    { unfold ceil_div. replace (k + n - 1)%nat with ((j + n - 1) + 1 * n)%nat by lia.
      rewrite Nat.div_add by lia. lia. }
    assert (Hmod : Nat.modulo k n = Nat.modulo j n).
    { replace k with (j + 1 * n)%nat by lia. apply Nat.Div0.mod_add. }
    rewrite Nat.min_r by lia. rewrite Hceil, Hmod.
    unfold claimed_sizes.
    destruct (Nat.eqb_spec j 0) as [| _]; [lia |].
    destruct (Nat.leb_spec j n).
    + assert (H1 : ceil_div j n = 1%nat).
      { unfold ceil_div. replace (j + n - 1)%nat with ((j - 1) + 1 * n)%nat by lia.
        rewrite Nat.div_add, Nat.div_small by lia. reflexivity. }
      rewrite H1. simpl.
      destruct (Nat.eq_dec j n) as [-> | Hne].
      * rewrite Nat.Div0.mod_same. reflexivity.
      * rewrite Nat.mod_small by lia.
        destruct (Nat.eqb_spec j 0); [lia | reflexivity].
    + assert (Hpos : (0 < ceil_div j n)%nat).
      { unfold ceil_div. apply Nat.div_str_pos. lia. }
      replace (S (ceil_div j n) - 1)%nat with (S (ceil_div j n - 1)) by lia.
      reflexivity.
Qed.

Lemma chunk_sizes_claimed : forall fuel k n,
  (k <= fuel)%nat -> (0 < n)%nat -> chunk_sizes fuel k n = claimed_sizes k n.
Proof.
  induction fuel as [| f IH]; intros k n Hk Hn.
  - replace k with O by lia. reflexivity.
  - simpl. destruct (Nat.eqb_spec k 0) as [-> | Hk0]; [reflexivity |].
    rewrite claimed_sizes_step by lia. f_equal. apply IH; lia.
Qed.

Lemma drain_batches s :
  length (types s) = length (sample_block s) -> length (names s) = length (sample_block s) ->
  sample_block s <> [] -> (0 < max_block_size s)%nat ->
  forall fuel docs l, (length docs < fuel)%nat -> Forall (fun r => row_ok s r = true) docs ->
  exists bs c', drain fuel s (mkCursor docs l) = (Ok bs, c') /\
    map rows bs = chunk_sizes fuel (length docs) (max_block_size s) /\ pending c' = [].
Proof.
  intros Ht Hn Hsb Hpos fuel; induction fuel as [| f IH]; intros docs l Hf Hok; [lia |].
  destruct docs as [| r rs].
  - exists [], (mkCursor [] (l ++ [OpMore])). split; [reflexivity | split; reflexivity].
  - destruct (readImpl_batch s (r :: rs) l ltac:(discriminate) Ht Hn Hpos Hok)
      as [b [[p1 l1] [Hrd [Hp [Hlb Hfb]]]]].
    simpl in Hp; subst p1.
    destruct (IH (skipn (max_block_size s) (r :: rs)) l1) as [bs [c2 [Hdr [Hrows Hp2]]]].
    { rewrite length_skipn. cbn [List.length] in *. lia. }
    { apply Forall_skipn_row; exact Hok. }
    destruct b as [| col b'].
    { simpl in Hlb. destruct (sample_block s); [congruence | discriminate]. }
    exists ((col :: b') :: bs), c2.
    split.
    + cbn [drain]. unfold bind at 1. rewrite Hrd. unfold bind. rewrite Hdr. reflexivity.
    + split; [| exact Hp2].
      cbn [map chunk_sizes]. rewrite Hrows, length_skipn.
      inversion Hfb as [| ? ? Hcol _]; subst.
      simpl. rewrite Hcol. reflexivity.
Qed.

(** ** Claims about whole streams *)

(** (C1) For a sample block with at least one column, [n > 0] and [k]
    documents that all go in, the stream yields non-empty blocks of the
    sizes [claimed_sizes k n] (none for [k = 0]; [[k]] for [k <= n];
    otherwise [ceil(k/n)] blocks of [n] rows except the last, of
    [k mod n] rows, or [n] when [k mod n = 0]) and is then exhausted. *)
Theorem batch_sizes sb n c0 s c1 :
  sb <> [] -> (0 < n)%nat ->
  MongoDBBlockInputStream sb n c0 = (Ok s, c1) ->
  Forall (fun r => row_ok s r = true) (pending c0) ->
  exists bs c2,
    drain (S (length (pending c0))) s c1 = (Ok bs, c2) /\
    map rows bs = claimed_sizes (length (pending c0)) n /\
    pending c2 = [] /\ fst (readImpl s c2) = Ok [].
Proof.
  intros Hsb Hn Hc Hok. destruct c0 as [p l]; simpl in Hok |- *.
  destruct p as [| r rs].
  - injection Hc as <- <-.
    exists [], (mkCursor [] ((l ++ [OpMore]) ++ [OpMore])). repeat split; reflexivity.
  - unfold MongoDBBlockInputStream, bind, more, lift, ret in Hc; simpl in Hc.
    destruct (bind_columns sb) as [[ts ns] | e] eqn:Hb; [| discriminate].
    injection Hc as <- <-.
    destruct (bind_columns_lengths _ _ _ Hb) as [Ht Hns].
    destruct (drain_batches (mkStream sb n ts ns) Ht Hns Hsb Hn (S (length (r :: rs)))
                (r :: rs) (l ++ [OpMore]) ltac:(lia) Hok) as [bs [[p2 l2] [Hd [Hrows Hp]]]].
    simpl in Hp; subst p2.
    exists bs, (mkCursor [] l2). split; [exact Hd |]. split.
    + rewrite Hrows. apply chunk_sizes_claimed; simpl; lia.
    + split; reflexivity.
Qed.

Lemma batch_sizes_witness :
  exists bs c2,
    drain 4 (mkStream [mkColumn "id" DataTypeUInt32 []] 2 [value_type_t.UInt32] ["id"%string])
      (mkCursor [[("id"%string, VInt 1)]; [("id"%string, VInt 2)]; [("id"%string, VInt 3)]]
                ([] ++ [OpMore])) = (Ok bs, c2) /\
    map rows bs = claimed_sizes 3 2 /\ pending c2 = [] /\
    fst (readImpl (mkStream [mkColumn "id" DataTypeUInt32 []] 2 [value_type_t.UInt32] ["id"%string]) c2)
    = Ok [].
Proof.
  apply (batch_sizes [mkColumn "id" DataTypeUInt32 []] 2
    (mkCursor [[("id"%string, VInt 1)]; [("id"%string, VInt 2)]; [("id"%string, VInt 3)]] []));
    [discriminate | lia | reflexivity | repeat constructor].
Defined.

(** (C2, amended) A [readImpl] call that returns a block either found the
    cursor exhausted and returns the empty block (no columns at all), or
    returns one column per column of the sample block, all with the same
    number of rows, between 1 and [max_block_size]. *)
Theorem block_shape s c b c' :
  reachable s c -> (0 < max_block_size s)%nat -> readImpl s c = (Ok b, c') ->
  (pending c = [] /\ b = []) \/
  (columns b = columns (sample_block s) /\
   exists k, (1 <= k <= max_block_size s)%nat /\ Forall (fun col => length (column col) = k) b).
Proof.
  intros Hr Hpos Hrd. destruct c as [[| r rs] l].
  - left. rewrite readImpl_exhausted in Hrd. injection Hrd as <- _. split; reflexivity.
  - right. destruct (reachable_lengths s _ Hr ltac:(discriminate)) as [Ht Hn].
    rewrite readImpl_more in Hrd.
    destruct (read_loop_shape s _ _ _ _ _ _ Hrd) as [Hl [k [Hk [Hf Hgt]]]];
      rewrite ?cloneEmpty_length; try lia; try apply cloneEmpty_rows.
    unfold columns. rewrite cloneEmpty_length in Hl. split; [exact Hl |].
    exists k. split; [| exact Hf].
    specialize (Hgt ltac:(discriminate) ltac:(lia)). lia.
Qed.

Lemma block_shape_witness :
  (pending (mkCursor [[("id"%string, VInt 1)]] [OpMore]) = [] /\
   [mkColumn "id" DataTypeUInt32 [CUInt32 1]] = []) \/
  (columns [mkColumn "id" DataTypeUInt32 [CUInt32 1]] = columns [mkColumn "id" DataTypeUInt32 []] /\
   exists k, (1 <= k <= 1)%nat /\
     Forall (fun col => length (column col) = k) [mkColumn "id" DataTypeUInt32 [CUInt32 1]]).
Proof.
  apply (block_shape (mkStream [mkColumn "id" DataTypeUInt32 []] 1 [value_type_t.UInt32] ["id"%string])
           (mkCursor [[("id"%string, VInt 1)]] [OpMore])
           [mkColumn "id" DataTypeUInt32 [CUInt32 1]]
           (mkCursor [] [OpMore; OpMore; OpMore; OpNext])).
  - apply (reachable_init [mkColumn "id" DataTypeUInt32 []] 1 (mkCursor [[("id"%string, VInt 1)]] [])).
    reflexivity.
  - simpl; lia.
  - reflexivity.
Defined.

(** (C2, counterexample) The block that ends the stream has no columns,
    although the sample block has one. *)
Lemma terminal_block_has_no_columns :
  fst ((s <- MongoDBBlockInputStream [mkColumn "id" DataTypeUInt32 []] 1 ;; produce 2 s)
         (mkCursor [[("id"%string, VInt 1)]] []))
  = Ok [[mkColumn "id" DataTypeUInt32 [CUInt32 1]]; []] /\
  columns [] <> columns [mkColumn "id" DataTypeUInt32 []].
Proof. split; [vm_compute; reflexivity | discriminate]. Qed.

(** (C6, amended) Once [readImpl] has returned the empty block that ends
    the stream (sample block with at least one column), every later call
    returns the empty block again and reads no document: the only call it
    makes on the cursor is one [more()]. *)
Theorem exhausted_is_terminal s c c1 :
  reachable s c -> sample_block s <> [] -> readImpl s c = (Ok [], c1) ->
  forall m, produce m s c1 = (Ok (repeat [] m), mkCursor [] (log c1 ++ repeat OpMore m)).
Proof.
  intros Hr Hsb Hrd m. destruct c as [[| r rs] l].
  - rewrite readImpl_exhausted in Hrd. injection Hrd as <-. apply produce_exhausted.
  - destruct (reachable_lengths s _ Hr ltac:(discriminate)) as [Ht Hn].
    rewrite readImpl_more in Hrd.
    pose proof (read_loop_length s _ _ _ _ _ _ Hrd) as Hl.
    rewrite cloneEmpty_length in Hl. specialize (Hl Ht Hn).
    destruct (sample_block s); [congruence | discriminate].
Qed.

Lemma exhausted_is_terminal_witness :
  produce 3 (mkStream [mkColumn "id" DataTypeUInt32 []] 1 [value_type_t.UInt32] ["id"%string])
    (mkCursor [] [OpMore; OpMore; OpMore; OpNext; OpMore])
  = (Ok (repeat [] 3), mkCursor [] ([OpMore; OpMore; OpMore; OpNext; OpMore] ++ repeat OpMore 3)).
Proof.
  apply (exhausted_is_terminal
           (mkStream [mkColumn "id" DataTypeUInt32 []] 1 [value_type_t.UInt32] ["id"%string])
           (mkCursor [] [OpMore; OpMore; OpMore; OpNext])).
  - apply (reachable_step _ (mkCursor [[("id"%string, VInt 1)]] [OpMore])
             [mkColumn "id" DataTypeUInt32 [CUInt32 1]]).
    + apply (reachable_init [mkColumn "id" DataTypeUInt32 []] 1 (mkCursor [[("id"%string, VInt 1)]] [])).
      reflexivity.
    + reflexivity.
  - discriminate.
  - reflexivity.
Defined.

(** (C6, counterexample) After the second call has returned the empty
    block that ends the stream, a third call still calls [more()] on the
    cursor. *)
Lemma exhausted_stream_still_queries_cursor :
  fst ((s <- MongoDBBlockInputStream [mkColumn "id" DataTypeUInt32 []] 1 ;; produce 2 s)
         (mkCursor [[("id"%string, VInt 1)]] []))
  = Ok [[mkColumn "id" DataTypeUInt32 [CUInt32 1]]; []] /\
  log (snd ((s <- MongoDBBlockInputStream [mkColumn "id" DataTypeUInt32 []] 1 ;; produce 3 s)
              (mkCursor [[("id"%string, VInt 1)]] [])))
  = log (snd ((s <- MongoDBBlockInputStream [mkColumn "id" DataTypeUInt32 []] 1 ;; produce 2 s)
                (mkCursor [[("id"%string, VInt 1)]] []))) ++ [OpMore].
Proof. split; vm_compute; reflexivity. Qed.

(** (C9, amended) For every numeric kind, a present value that is not a
    BSON number (a string included: it is never parsed) throws
    [TYPE_MISMATCH] "Type mismatch, expected a number, got <tag>", the
    same message for all nine kinds. A document that throws, reached
    before the batch is full, makes [readImpl] throw: no block is returned,
    not even the rows already read. *)
Theorem numeric_type_mismatch_fatal col t v s good bad rest l e :
  is_numeric_kind t = true -> isNumber v = false ->
  insertValue col t v = Err (type_mismatch "a number" v) /\
  (Forall (fun r => row_ok s r = true) good ->
   length (types s) = length (sample_block s) -> length (names s) = length (sample_block s) ->
   (length good < max_block_size s)%nat ->
   insert_row (cloneEmpty (sample_block s)) (types s) (names s) bad = Err e ->
   fst (readImpl s (mkCursor (good ++ bad :: rest) l)) = Err e).
Proof.
  intros Ht Hv. split; [apply numeric_kind_rejects_non_number; assumption |].
  intros Hok Hts Hns Hlt Hbad.
  destruct (good ++ bad :: rest) as [| r rs] eqn:E; [destruct good; discriminate |].
  rewrite readImpl_more, <- E.
  apply read_loop_error; try assumption; try (rewrite cloneEmpty_length; lia).
  rewrite length_app. simpl. lia.
Qed.

Lemma numeric_type_mismatch_fatal_witness :
  insertValue [] value_type_t.UInt32 (VString "7")
    = Err (type_mismatch "a number" (VString "7")) /\
  fst (readImpl (mkStream [mkColumn "id" DataTypeUInt32 []] 2 [value_type_t.UInt32] ["id"%string])
         (mkCursor ([[("id"%string, VInt 1)]] ++ [("id"%string, VString "2")] :: []) [OpMore]))
  = Err (type_mismatch "a number" (VString "2")).
Proof.
  destruct (numeric_type_mismatch_fatal [] value_type_t.UInt32 (VString "7")
              (mkStream [mkColumn "id" DataTypeUInt32 []] 2 [value_type_t.UInt32] ["id"%string])
              [[("id"%string, VInt 1)]] [("id"%string, VString "2")] [] [OpMore]
              (type_mismatch "a number" (VString "2")) eq_refl eq_refl) as [H1 H2].
  split; [exact H1 |].
  apply H2; [repeat constructor | reflexivity | reflexivity | simpl; lia | reflexivity].
Defined.

(* ========================================================================= *)
(** * Further properties of the stream *)

(** ** Cells and columns *)

Lemma insert_cell_append col t n row :
  insert_cell col t n row =
  match insert_cell [] t n row with Ok l => Ok (col ++ l) | Err e => Err e end.
Proof.
  unfold insert_cell. destruct (getField row n) as [v |].
  - apply insertValue_append.
  - rewrite !insertDefaultValue_append. reflexivity.
Qed.

Lemma insert_cell_ok_length col t n row col' :
  insert_cell col t n row = Ok col' -> length col' = S (length col).
Proof.
  unfold insert_cell. destruct (getField row n) as [v |].
  - apply insertValue_ok_length.
  - intros [= <-]. rewrite insertDefaultValue_append, length_app. simpl; lia.
Qed.

(** Filling a column that already holds data appends what filling an
    empty one gives. *)
Lemma convert_column_shift t n rows : forall col,
  convert_column t n col rows =
  match convert_column t n [] rows with Ok d => Ok (col ++ d) | Err e => Err e end.
Proof.
  induction rows as [| r rs IH]; intros col; simpl.
  - rewrite app_nil_r. reflexivity.
  - rewrite (insert_cell_append col).
    destruct (insert_cell [] t n r) as [l | e]; [| reflexivity].
    rewrite (IH (col ++ l)), (IH l).
    destruct (convert_column t n [] rs); [rewrite app_assoc |]; reflexivity.
Qed.

Lemma convert_column_app t n xs : forall col ys,
  convert_column t n col (xs ++ ys) =
  match convert_column t n col xs with Ok c1 => convert_column t n c1 ys | Err e => Err e end.
Proof.
  induction xs as [| r rs IH]; intros col ys; simpl; [reflexivity |].
  destruct (insert_cell col t n r); [apply IH | reflexivity].
Qed.

Lemma convert_column_length t n rows : forall col col',
  convert_column t n col rows = Ok col' -> length col' = (length col + length rows)%nat.
Proof.
  induction rows as [| r rs IH]; intros col col'; simpl.
  - intros [= <-]; lia.
  - destruct (insert_cell col t n r) as [c1 |] eqn:Hc; [| discriminate].
    intros H. rewrite (IH _ _ H), (insert_cell_ok_length _ _ _ _ _ Hc). lia.
Qed.

(** Column [i] of a row that went in: the same name and type, and the
    cell of its field appended to its data. *)
Lemma insert_row_nth b ts ns row b' i c t n :
  insert_row b ts ns row = Ok b' ->
  nth_error b i = Some c -> nth_error ts i = Some t -> nth_error ns i = Some n ->
  exists c', nth_error b' i = Some c' /\ cname c' = cname c /\ ctype c' = ctype c /\
    insert_cell (column c) t n row = Ok (column c').
Proof.
  revert ts ns b' i; induction b as [| c0 r IH]; intros ts ns b' i Hrow Hb Ht Hn.
  - destruct i; discriminate.
  - destruct ts as [| t0 ts]; [destruct i; discriminate |].
    destruct ns as [| n0 ns]; [destruct i; discriminate |].
    simpl in Hrow. fold (insert_cell (column c0) t0 n0 row) in Hrow.
    destruct (insert_cell (column c0) t0 n0 row) as [data | e] eqn:Hd; [| discriminate].
    destruct (insert_row r ts ns row) as [r' | e] eqn:Hr; [| discriminate].
    injection Hrow as <-.
    destruct i as [| i]; simpl in Hb, Ht, Hn |- *.
    + injection Hb as <-. injection Ht as <-. injection Hn as <-.
      eexists; repeat split; exact Hd.
    + exact (IH ts ns r' i Hr Hb Ht Hn).
Qed.



(** ** What one call of the reading loop consumed *)

Section ReadTrace.
Variable s : Stream.

(** A row that went into a block of some length goes into every block of
    that length. *)
Definition row_fits (len : nat) (row : BSONObj) : Prop :=
  forall blk, length blk = len -> exists blk', insert_row blk (types s) (names s) row = Ok blk'.

(** The records a run of the loop took from the cursor ([pre]): on success
    column [i] of the result is column [i] of the start block filled with
    field [names[i]] of those records; the run stops early only when the
    cursor ran out. On failure the last record taken is the one that did not
    go in, and the ones before it did. *)
Lemma read_loop_trace : forall fuel block num c r c',
  read_loop fuel s block num c = (r, c') ->
  length (types s) = length block -> length (names s) = length block ->
  exists pre, pending c = pre ++ pending c' /\
  match r with
  | Ok b =>
      length b = length block /\
      (forall i col t n, nth_error block i = Some col -> nth_error (types s) i = Some t ->
         nth_error (names s) i = Some n ->
         exists col', nth_error b i = Some col' /\ cname col' = cname col /\
           ctype col' = ctype col /\ convert_column t n (column col) pre = Ok (column col')) /\
      (pending c <> [] -> (0 < fuel)%nat -> pre <> []) /\
      ((length (pending c) < fuel)%nat -> pending c' <> [] -> (num + length pre)%nat = max_block_size s)
  | Err e =>
      exists good bad, pre = good ++ [bad] /\ Forall (row_fits (length block)) good /\
        forall blk, length blk = length block -> insert_row blk (types s) (names s) bad = Err e
  end.
Proof.
  induction fuel as [| f IH]; intros block num [p l] r c' Hrun Ht Hn.
  - simpl in Hrun. injection Hrun as <- <-. exists []. split; [reflexivity |].
    split; [reflexivity |]. split.
    + intros i col t n Hb _ _. exists col. auto.
    + split; intros; simpl in *; lia.
  - destruct p as [| r0 rs].
    + simpl in Hrun. injection Hrun as <- <-. exists []. split; [reflexivity |].
      split; [reflexivity |]. split.
      * intros i col t n Hb _ _. exists col. auto.
      * split; intros; simpl in *; congruence.
    + cbn [read_loop] in Hrun; unfold bind, more, next, lift, ret in Hrun;
        cbn [pending log negb] in Hrun.
      destruct (insert_row block (types s) (names s) r0) as [block' | e] eqn:Hins.
      * destruct (insert_row_ok_shape block (types s) (names s) r0 block' Ht Hn Hins) as [Hl' _].
        assert (Hcell : forall i col t n, nth_error block i = Some col ->
                  nth_error (types s) i = Some t -> nth_error (names s) i = Some n ->
                  exists col1, nth_error block' i = Some col1 /\ cname col1 = cname col /\
                    ctype col1 = ctype col /\ insert_cell (column col) t n r0 = Ok (column col1))
          by (intros; eapply insert_row_nth; eassumption).
        assert (Hfit : row_fits (length block) r0).
        { intros blk Hblk. apply (insert_row_ok_indep block blk _ _ _ block'); [lia | exact Hins]. }
        destruct (Nat.eqb (S num) (max_block_size s)) eqn:Heq.
        -- apply Nat.eqb_eq in Heq. injection Hrun as <- <-.
           exists [r0]. split; [reflexivity |]. split; [exact Hl' |]. split.
           ++ intros i col t n Hb Hti Hni.
              destruct (Hcell i col t n Hb Hti Hni) as [col1 [H1 [H2 [H3 H4]]]].
              exists col1. simpl. rewrite H4. auto.
           ++ split; [intros _ _; discriminate | intros; simpl; lia].
        -- destruct (IH block' (S num) _ r c' Hrun ltac:(lia) ltac:(lia)) as [pre [Hp Hr]].
           simpl in Hp. exists (r0 :: pre). split; [simpl; congruence |].
           destruct r as [b | e].
           ++ destruct Hr as [Hlb [Hcols [_ Hstop]]].
              split; [lia |]. split.
              ** intros i col t n Hb Hti Hni.
                 destruct (Hcell i col t n Hb Hti Hni) as [col1 [H1 [H2 [H3 H4]]]].
                 destruct (Hcols i col1 t n H1 Hti Hni) as [col' [G1 [G2 [G3 G4]]]].
                 exists col'. simpl. rewrite H4. repeat split; congruence.
              ** split; [intros _ _; discriminate |].
                 intros Hlt Hne.
                 pose proof (Hstop ltac:(simpl in *; lia) Hne). simpl. lia.
           ++ destruct Hr as [good [bad [Hg [Hfits Hbad]]]].
              exists (r0 :: good), bad. split; [rewrite Hg; reflexivity |].
              split; [constructor; [exact Hfit | rewrite <- Hl'; exact Hfits] |].
              intros blk Hblk. apply Hbad. lia.
      * injection Hrun as <- <-. exists [r0]. split; [reflexivity |].
        exists [], r0. split; [reflexivity |]. split; [constructor |].
        intros blk Hblk. apply (insert_row_err_indep block blk); [lia | exact Hins].
Qed.

End ReadTrace.


Lemma nth_error_cloneEmpty b i col :
  nth_error b i = Some col ->
  nth_error (cloneEmpty b) i = Some (mkColumn (cname col) (ctype col) []).
Proof. intros H. unfold cloneEmpty. rewrite nth_error_map, H. reflexivity. Qed.

(** [readImpl] on a cursor with a document: the loop's trace from an empty
    copy of the sample block. *)
Lemma readImpl_trace s c r c' :
  reachable s c -> pending c <> [] -> readImpl s c = (r, c') ->
  exists pre, pending c = pre ++ pending c' /\
  match r with
  | Ok b =>
      length b = length (sample_block s) /\
      (forall i col t n, nth_error (sample_block s) i = Some col -> nth_error (types s) i = Some t ->
         nth_error (names s) i = Some n ->
         exists col', nth_error b i = Some col' /\ cname col' = cname col /\
           ctype col' = ctype col /\ convert_column t n [] pre = Ok (column col')) /\
      pre <> [] /\
      (pending c' <> [] -> length pre = max_block_size s)
  | Err e =>
      exists good bad, pre = good ++ [bad] /\ Forall (fun row => row_ok s row = true) good /\
        insert_row (cloneEmpty (sample_block s)) (types s) (names s) bad = Err e
  end.
Proof.
  intros Hr Hp Hrun. destruct (reachable_lengths s c Hr Hp) as [Ht Hn].
  destruct c as [[| r0 rs] l]; [simpl in Hp; congruence |].
  rewrite readImpl_more in Hrun.
  destruct (read_loop_trace s _ _ _ _ _ _ Hrun ltac:(rewrite cloneEmpty_length; lia)
              ltac:(rewrite cloneEmpty_length; lia)) as [pre [Hpre Hres]].
  exists pre. split; [exact Hpre |]. simpl pending in *. destruct r as [b | e].
  - destruct Hres as [Hl [Hcols [Hne Hstop]]]. rewrite cloneEmpty_length in Hl.
    split; [exact Hl |]. split.
    + intros i col t n Hb Hti Hni.
      destruct (Hcols i _ t n (nth_error_cloneEmpty _ _ _ Hb) Hti Hni) as [col' [H1 [H2 [H3 H4]]]].
      exists col'. simpl in *. auto.
    + split; [apply Hne; [discriminate | lia] |].
      intros Hne'. pose proof (Hstop ltac:(lia) Hne'). lia.
  - destruct Hres as [good [bad [Hg [Hfits Hbad]]]].
    exists good, bad. split; [exact Hg |]. split.
    + eapply Forall_impl; [| exact Hfits]. intros row Hrow. unfold row_ok.
      destruct (Hrow (cloneEmpty (sample_block s)) ltac:(rewrite !cloneEmpty_length; lia))
        as [blk' ->].
      reflexivity.
    + apply Hbad. rewrite !cloneEmpty_length. reflexivity.
Qed.

(** ** Blocks and the records they hold *)

(** Each column of a block [readImpl] returns is, in record order, the
    conversion of its field over exactly the records the call took from the
    cursor: no record is skipped, reordered or read twice, and the column
    keeps the name and type of the sample block's column. *)
Theorem readImpl_columns s c b c' :
  reachable s c -> pending c <> [] -> readImpl s c = (Ok b, c') ->
  exists consumed, pending c = consumed ++ pending c' /\ consumed <> [] /\
    length b = length (sample_block s) /\
    forall i col t n, nth_error (sample_block s) i = Some col -> nth_error (types s) i = Some t ->
      nth_error (names s) i = Some n ->
      exists col', nth_error b i = Some col' /\ cname col' = cname col /\ ctype col' = ctype col /\
        convert_column t n [] consumed = Ok (column col').
Proof.
  intros Hr Hp Hrun.
  destruct (readImpl_trace s c (Ok b) c' Hr Hp Hrun) as [pre [Hpre [Hl [Hcols [Hne _]]]]].
  exists pre. auto.
Qed.

Lemma readImpl_columns_witness :
  exists consumed,
    pending (mkCursor [[("id"%string, VInt 1); ("name"%string, VString "a")];
                       [("name"%string, VString "b")]; [("id"%string, VInt 3)]] [OpMore])
    = consumed ++ pending (mkCursor [[("id"%string, VInt 3)]]
                             [OpMore; OpMore; OpMore; OpNext; OpMore; OpNext]) /\
    consumed <> [] /\
    length [mkColumn "id" DataTypeUInt32 [CUInt32 1; CUInt32 0];
            mkColumn "name" DataTypeString [CString "a"; CString "b"]]
    = length [mkColumn "id" DataTypeUInt32 []; mkColumn "name" DataTypeString []] /\
    forall i col t n,
      nth_error [mkColumn "id" DataTypeUInt32 []; mkColumn "name" DataTypeString []] i = Some col ->
      nth_error [value_type_t.UInt32; value_type_t.String] i = Some t ->
      nth_error ["id"; "name"]%string i = Some n ->
      exists col', nth_error [mkColumn "id" DataTypeUInt32 [CUInt32 1; CUInt32 0];
                              mkColumn "name" DataTypeString [CString "a"; CString "b"]] i = Some col' /\
        cname col' = cname col /\ ctype col' = ctype col /\
        convert_column t n [] consumed = Ok (column col').
Proof.
  apply (readImpl_columns
    (mkStream [mkColumn "id" DataTypeUInt32 []; mkColumn "name" DataTypeString []] 2
       [value_type_t.UInt32; value_type_t.String] ["id"; "name"]%string)
    (mkCursor [[("id"%string, VInt 1); ("name"%string, VString "a")];
               [("name"%string, VString "b")]; [("id"%string, VInt 3)]] [OpMore])).
  - apply (reachable_init [mkColumn "id" DataTypeUInt32 []; mkColumn "name" DataTypeString []] 2
             (mkCursor [[("id"%string, VInt 1); ("name"%string, VString "a")];
                        [("name"%string, VString "b")]; [("id"%string, VInt 3)]] [])).
    vm_compute. reflexivity.
  - discriminate.
  - vm_compute. reflexivity.
Defined.

(** The number of rows of a block is the number of records the call took;
    it took them from the front of the cursor. *)
Lemma readImpl_rows s c b c' :
  reachable s c -> pending c <> [] -> sample_block s <> [] -> readImpl s c = (Ok b, c') ->
  exists pre, pending c = pre ++ pending c' /\ rows b = length pre /\ pre <> [] /\
    (pending c' <> [] -> length pre = max_block_size s).
Proof.
  intros Hr Hp Hsb Hrun.
  destruct (reachable_lengths s c Hr Hp) as [Ht Hn].
  destruct (readImpl_trace s c (Ok b) c' Hr Hp Hrun) as [pre [Hpre [Hl [Hcols [Hne Hstop]]]]].
  exists pre. split; [exact Hpre |]. split; [| auto].
  destruct (sample_block s) as [| col0 sb'] eqn:Esb; [congruence |].
  destruct (types s) as [| t0 ts] eqn:Et; [simpl in Ht; discriminate |].
  destruct (names s) as [| n0 ns] eqn:En; [simpl in Hn; discriminate |].
  destruct (Hcols 0%nat col0 t0 n0 eq_refl eq_refl eq_refl) as [col' [Hb0 [_ [_ Hconv]]]].
  destruct b as [| c0 b']; [discriminate |]. injection Hb0 as ->. simpl.
  rewrite (convert_column_length _ _ _ _ _ Hconv). reflexivity.
Qed.

(** A block shorter than [max_block_size] is returned only when the cursor
    has run out; every row of a block is a record taken from the cursor. *)
Theorem readImpl_short_block_ends s c b c' :
  reachable s c -> sample_block s <> [] -> readImpl s c = (Ok b, c') ->
  length (pending c) = (rows b + length (pending c'))%nat /\
  ((rows b < max_block_size s)%nat -> pending c' = []).
Proof.
  intros Hr Hsb Hrun. destruct c as [[| r0 rs] l].
  - rewrite readImpl_exhausted in Hrun. injection Hrun as <- <-. simpl. auto.
  - destruct (readImpl_rows s _ b c' Hr ltac:(discriminate) Hsb Hrun) as [pre [Hpre [Hrows [_ Hstop]]]].
    split.
    + rewrite Hpre, length_app. lia.
    + intros Hlt. destruct (pending c') as [| x xs] eqn:E; [reflexivity |].
      rewrite <- E in Hstop. pose proof (Hstop ltac:(congruence)). lia.
Qed.

Lemma readImpl_short_block_ends_witness :
  length (pending (mkCursor [[("id"%string, VInt 1); ("name"%string, VString "a")];
                             [("name"%string, VString "b")]] [OpMore]))
  = (rows [mkColumn "id" DataTypeUInt32 [CUInt32 1; CUInt32 0];
           mkColumn "name" DataTypeString [CString "a"; CString "b"]]
     + length (pending (mkCursor [] [OpMore; OpMore; OpMore; OpNext; OpMore; OpNext; OpMore])))%nat /\
  ((rows [mkColumn "id" DataTypeUInt32 [CUInt32 1; CUInt32 0];
          mkColumn "name" DataTypeString [CString "a"; CString "b"]] < 3)%nat ->
   pending (mkCursor [] [OpMore; OpMore; OpMore; OpNext; OpMore; OpNext; OpMore]) = []).
Proof.
  apply (readImpl_short_block_ends
    (mkStream [mkColumn "id" DataTypeUInt32 []; mkColumn "name" DataTypeString []] 3
       [value_type_t.UInt32; value_type_t.String] ["id"; "name"]%string)
    (mkCursor [[("id"%string, VInt 1); ("name"%string, VString "a")];
               [("name"%string, VString "b")]] [OpMore])).
  - apply (reachable_init [mkColumn "id" DataTypeUInt32 []; mkColumn "name" DataTypeString []] 3
             (mkCursor [[("id"%string, VInt 1); ("name"%string, VString "a")];
                        [("name"%string, VString "b")]] [])).
    vm_compute. reflexivity.
  - discriminate.
  - vm_compute. reflexivity.
Defined.

(** With [max_block_size] = 0 the test [num_rows == max_block_size] never
    holds after [++num_rows]: one call reads every record left into a
    single block. *)
Theorem zero_max_block_size_reads_all s c b c' :
  reachable s c -> max_block_size s = 0%nat -> readImpl s c = (Ok b, c') ->
  pending c' = [] /\ (sample_block s <> [] -> rows b = length (pending c)).
Proof.
  intros Hr Hz Hrun. destruct c as [[| r0 rs] l].
  - rewrite readImpl_exhausted in Hrun. injection Hrun as <- <-. auto.
  - destruct (readImpl_trace s _ (Ok b) c' Hr ltac:(discriminate) Hrun)
      as [pre [Hpre [_ [_ [Hne Hstop]]]]].
    assert (Hc' : pending c' = []).
    { destruct (pending c') eqn:E; [reflexivity |].
      rewrite <- E in Hstop. pose proof (Hstop ltac:(congruence)) as H.
      rewrite Hz in H. destruct pre; [congruence | discriminate]. }
    split; [exact Hc' |]. intros Hsb.
    destruct (readImpl_rows s _ b c' Hr ltac:(discriminate) Hsb Hrun) as [pre' [Hp' [Hrows _]]].
    rewrite Hrows. rewrite Hc', app_nil_r in Hp'. rewrite Hp'. reflexivity.
Qed.

Lemma zero_max_block_size_reads_all_witness :
  pending (mkCursor [] [OpMore; OpMore; OpMore; OpNext; OpMore; OpNext; OpMore; OpNext; OpMore]) = [] /\
  ([mkColumn "id" DataTypeUInt32 []; mkColumn "name" DataTypeString []] <> [] ->
   rows [mkColumn "id" DataTypeUInt32 [CUInt32 1; CUInt32 0; CUInt32 3];
         mkColumn "name" DataTypeString [CString "a"; CString "b"; CString ""]]
   = length (pending (mkCursor [[("id"%string, VInt 1); ("name"%string, VString "a")];
                                [("name"%string, VString "b")]; [("id"%string, VInt 3)]] [OpMore]))).
Proof.
  apply (zero_max_block_size_reads_all
    (mkStream [mkColumn "id" DataTypeUInt32 []; mkColumn "name" DataTypeString []] 0
       [value_type_t.UInt32; value_type_t.String] ["id"; "name"]%string)
    (mkCursor [[("id"%string, VInt 1); ("name"%string, VString "a")];
               [("name"%string, VString "b")]; [("id"%string, VInt 3)]] [OpMore])).
  - apply (reachable_init [mkColumn "id" DataTypeUInt32 []; mkColumn "name" DataTypeString []] 0
             (mkCursor [[("id"%string, VInt 1); ("name"%string, VString "a")];
                        [("name"%string, VString "b")]; [("id"%string, VInt 3)]] [])).
    vm_compute. reflexivity.
  - reflexivity.
  - vm_compute. reflexivity.
Defined.

(** ** Failures *)

(** A call that throws has taken from the cursor the record that did not
    go in and every record before it in the batch (those did go in): they
    are gone, and the next call starts after the bad record. *)
Theorem readImpl_error_consumes s c e c' :
  reachable s c -> readImpl s c = (Err e, c') ->
  exists good bad, pending c = good ++ bad :: pending c' /\
    Forall (fun row => row_ok s row = true) good /\
    insert_row (cloneEmpty (sample_block s)) (types s) (names s) bad = Err e.
Proof.
  intros Hr Hrun. destruct c as [[| r0 rs] l].
  - rewrite readImpl_exhausted in Hrun. discriminate.
  - destruct (readImpl_trace s _ (Err e) c' Hr ltac:(discriminate) Hrun)
      as [pre [Hpre [good [bad [-> [Hgood Hbad]]]]]].
    exists good, bad. rewrite Hpre, <- app_assoc. auto.
Qed.

Lemma readImpl_error_consumes_witness :
  exists good bad,
    pending (mkCursor [[("id"%string, VInt 1)]; [("id"%string, VBool true)]; [("id"%string, VInt 3)]]
               [OpMore])
    = good ++ bad :: pending (mkCursor [[("id"%string, VInt 3)]]
                               [OpMore; OpMore; OpMore; OpNext; OpMore; OpNext]) /\
    Forall (fun row => row_ok (mkStream [mkColumn "id" DataTypeUInt32 []] 2
                                 [value_type_t.UInt32] ["id"%string]) row = true) good /\
    insert_row (cloneEmpty [mkColumn "id" DataTypeUInt32 []]) [value_type_t.UInt32] ["id"%string] bad
    = Err (mkException "Type mismatch, expected a number, got Bool" TYPE_MISMATCH).
Proof.
  apply (readImpl_error_consumes
    (mkStream [mkColumn "id" DataTypeUInt32 []] 2 [value_type_t.UInt32] ["id"%string])
    (mkCursor [[("id"%string, VInt 1)]; [("id"%string, VBool true)]; [("id"%string, VInt 3)]] [OpMore])).
  - apply (reachable_init [mkColumn "id" DataTypeUInt32 []] 2
             (mkCursor [[("id"%string, VInt 1)]; [("id"%string, VBool true)]; [("id"%string, VInt 3)]] [])).
    vm_compute. reflexivity.
  - vm_compute. reflexivity.
Defined.



(** ** Construction *)

Lemma bind_columns_ok_inv sb : forall ts ns,
  bind_columns sb = Ok (ts, ns) ->
  ns = map cname sb /\ Forall2 (fun col t => value_type_of (ctype col) = Ok t) sb ts.
Proof.
  induction sb as [| c rest IH]; intros ts ns; simpl.
  - intros [= <- <-]. auto.
  - destruct (value_type_of (ctype c)) as [t | e] eqn:Ht; [| discriminate].
    destruct (bind_columns rest) as [[ts' ns'] | e] eqn:Hr; [| discriminate].
    intros [= <- <-]. destruct (IH ts' ns' eq_refl) as [-> Hf]. auto.
Qed.

(** Construction over a cursor with a document and a sample block whose
    types are all supported: it asks [more()] once, takes no record, and
    binds to each column, in order, its name and the kind of its type. *)
Theorem construct_binds_columns sb n c :
  pending c <> [] -> (forall col, In col sb -> exists k, value_type_of (ctype col) = Ok k) ->
  exists ts,
    MongoDBBlockInputStream sb n c
    = (Ok (mkStream sb n ts (map cname sb)), mkCursor (pending c) (log c ++ [OpMore])) /\
    Forall2 (fun col t => value_type_of (ctype col) = Ok t) sb ts.
Proof.
  intros Hp Hall. destruct (bind_columns_none_err sb Hall) as [ts [ns Hb]].
  destruct (bind_columns_ok_inv sb ts ns Hb) as [-> Hf].
  exists ts. split; [| exact Hf].
  destruct c as [[| r rs] l]; [simpl in Hp; congruence |].
  unfold MongoDBBlockInputStream, bind, more, lift, ret. simpl. rewrite Hb. reflexivity.
Qed.

Lemma construct_binds_columns_witness :
  exists ts,
    MongoDBBlockInputStream
      [mkColumn "id" DataTypeUInt64 []; mkColumn "name" DataTypeString [];
       mkColumn "joined" DataTypeDate []] 5 (mkCursor [[("id"%string, VInt 1)]] [])
    = (Ok (mkStream [mkColumn "id" DataTypeUInt64 []; mkColumn "name" DataTypeString [];
                     mkColumn "joined" DataTypeDate []] 5 ts ["id"; "name"; "joined"]%string),
       mkCursor [[("id"%string, VInt 1)]] ([] ++ [OpMore])) /\
    Forall2 (fun col t => value_type_of (ctype col) = Ok t)
      [mkColumn "id" DataTypeUInt64 []; mkColumn "name" DataTypeString [];
       mkColumn "joined" DataTypeDate []] ts.
Proof.
  apply (construct_binds_columns
    [mkColumn "id" DataTypeUInt64 []; mkColumn "name" DataTypeString [];
     mkColumn "joined" DataTypeDate []] 5 (mkCursor [[("id"%string, VInt 1)]] [])).
  - discriminate.
  - intros col Hin. simpl in Hin.
    repeat (destruct Hin as [<- | Hin]; [eexists; reflexivity |]). contradiction.
Defined.

(** A sample block without columns: a call on a cursor with records takes
    up to [max_block_size] of them and returns the empty block, the same
    result that marks the end of the stream. *)
Theorem empty_schema_block_looks_final n docs l s c1 :
  MongoDBBlockInputStream [] n (mkCursor docs l) = (Ok s, c1) -> (0 < n)%nat -> docs <> [] ->
  exists c2, readImpl s c1 = (Ok [], c2) /\ pending c2 = skipn n docs.
Proof.
  intros Hc Hn Hd. destruct docs as [| d ds]; [congruence |].
  unfold MongoDBBlockInputStream, bind, more, lift, ret in Hc; simpl in Hc.
  injection Hc as <- <-.
  destruct (readImpl_batch (mkStream [] n [] []) (d :: ds) (l ++ [OpMore]) Hd eq_refl eq_refl Hn)
    as [b [c2 [Hrun [Hp [Hl _]]]]].
  - apply Forall_forall. intros r _. reflexivity.
  - exists c2. destruct b; [| discriminate]. auto.
Qed.

Lemma empty_schema_block_looks_final_witness :
  exists c2,
    readImpl (mkStream [] 2 [] []) (mkCursor [[("id"%string, VInt 1)]; [("id"%string, VInt 2)];
                                              [("id"%string, VInt 3)]] [OpMore])
    = (Ok [], c2) /\
    pending c2 = skipn 2 [[("id"%string, VInt 1)]; [("id"%string, VInt 2)]; [("id"%string, VInt 3)]].
Proof.
  apply (empty_schema_block_looks_final 2
    [[("id"%string, VInt 1)]; [("id"%string, VInt 2)]; [("id"%string, VInt 3)]] []).
  - reflexivity.
  - lia.
  - discriminate.
Defined.

(** ** Integer and double values in integer columns *)

(** An integer value (NumberInt or NumberLong) goes into a UInt32 column
    modulo 2^32 (for NumberLong the truncation to [int] and the conversion
    to [UInt32] compose) and into a UInt64 column modulo 2^64: a negative
    value wraps. An Int64 column keeps any value of the 64-bit range. *)
Theorem unsigned_columns_wrap_integers col z :
  insertValue col value_type_t.UInt32 (VInt z) = Ok (col ++ [CUInt32 (z mod 2 ^ 32)]) /\
  insertValue col value_type_t.UInt32 (VLong z) = Ok (col ++ [CUInt32 (z mod 2 ^ 32)]) /\
  insertValue col value_type_t.UInt64 (VInt z) = Ok (col ++ [CUInt64 (z mod 2 ^ 64)]) /\
  insertValue col value_type_t.UInt64 (VLong z) = Ok (col ++ [CUInt64 (z mod 2 ^ 64)]) /\
  (- 2 ^ 63 <= z < 2 ^ 63 ->
   insertValue col value_type_t.Int64 (VInt z) = Ok (col ++ [CInt64 z]) /\
   insertValue col value_type_t.Int64 (VLong z) = Ok (col ++ [CInt64 z])).
Proof.
  cbn [insertValue isNumber elem_type numberInt numberLong negb]. unfold to_unsigned.
  rewrite (to_signed_mod 32 z) by lia.
  split; [reflexivity |]. split; [reflexivity |]. split; [reflexivity |]. split; [reflexivity |].
  intros Hz. rewrite (to_signed_small 64 z) by (try lia; exact Hz). split; reflexivity.
Qed.

Lemma unsigned_columns_wrap_integers_witness :
  insertValue [] value_type_t.UInt32 (VInt (-1)) = Ok [CUInt32 4294967295] /\
  insertValue [] value_type_t.UInt32 (VLong (-1)) = Ok [CUInt32 4294967295] /\
  insertValue [] value_type_t.UInt64 (VInt (-1)) = Ok [CUInt64 18446744073709551615] /\
  insertValue [] value_type_t.UInt64 (VLong (-1)) = Ok [CUInt64 18446744073709551615] /\
  insertValue [] value_type_t.Int64 (VInt (-1)) = Ok [CInt64 (-1)] /\
  insertValue [] value_type_t.Int64 (VLong (-1)) = Ok [CInt64 (-1)].
Proof.
  destruct (unsigned_columns_wrap_integers [] (-1)) as [H1 [H2 [H3 [H4 H5]]]].
  destruct (H5 ltac:(lia)) as [H6 H7].
  rewrite H1, H2, H3, H4, H6, H7. repeat split.
Defined.

(** A double goes into an integer column truncated toward zero
    ([(int)] and [(long long)] casts), then narrowed to the column's width,
    as long as its integral part fits the cast's range. *)
Theorem double_truncates_toward_zero col d z :
  trunc_double d = Some z ->
  (- 2 ^ 31 <= z < 2 ^ 31 ->
   insertValue col value_type_t.Int32 (VDouble d) = Ok (col ++ [CInt32 z]) /\
   insertValue col value_type_t.UInt32 (VDouble d) = Ok (col ++ [CUInt32 (z mod 2 ^ 32)]) /\
   insertValue col value_type_t.UInt16 (VDouble d) = Ok (col ++ [CUInt16 (z mod 2 ^ 16)])) /\
  (- 2 ^ 63 <= z < 2 ^ 63 ->
   insertValue col value_type_t.Int64 (VDouble d) = Ok (col ++ [CInt64 z]) /\
   insertValue col value_type_t.UInt64 (VDouble d) = Ok (col ++ [CUInt64 (z mod 2 ^ 64)])).
Proof.
  intros Ht.
  cbn [insertValue isNumber elem_type numberInt numberLong negb]. unfold to_unsigned, cast_double_signed.
  rewrite Ht. split; intros Hz.
  - replace ((- 2 ^ (32 - 1) <=? z) && (z <? 2 ^ (32 - 1))) with true
      by (symmetry; apply andb_true_iff; split; [apply Z.leb_le | apply Z.ltb_lt]; simpl; lia).
    rewrite (to_signed_small 32 z) by (try lia; simpl; lia). auto.
  - replace ((- 2 ^ (64 - 1) <=? z) && (z <? 2 ^ (64 - 1))) with true
      by (symmetry; apply andb_true_iff; split; [apply Z.leb_le | apply Z.ltb_lt]; simpl; lia).
    rewrite (to_signed_small 64 z) by (try lia; simpl; lia). auto.
Qed.

Lemma double_truncates_toward_zero_witness :
  insertValue [] value_type_t.Int32 (VDouble (S754_finite true 11 (-2))) = Ok [CInt32 (-2)] /\
  insertValue [] value_type_t.UInt16 (VDouble (S754_finite true 11 (-2))) = Ok [CUInt16 65534] /\
  insertValue [] value_type_t.Int64 (VDouble (S754_finite true 11 (-2))) = Ok [CInt64 (-2)].
Proof.
  destruct (double_truncates_toward_zero [] (S754_finite true 11 (-2)) (-2) eq_refl) as [H1 H2].
  destruct (H1 ltac:(lia)) as [H3 [_ H5]]. destruct (H2 ltac:(lia)) as [H6 _].
  rewrite H3, H5, H6. repeat split.
Defined.

(** ** The whole stream *)

(** Reading until the empty block, with the cursor run out at the end: for
    each column, the data of the blocks, one after the other, is the
    conversion of its field over every record the cursor held, in order. *)
Theorem drain_concatenates_records s :
  sample_block s <> [] ->
  forall fuel c bs c', reachable s c -> drain fuel s c = (Ok bs, c') -> pending c' = [] ->
  forall i col t n, nth_error (sample_block s) i = Some col -> nth_error (types s) i = Some t ->
    nth_error (names s) i = Some n ->
    convert_column t n [] (pending c) = Ok (List.concat (map (fun b => column_at b i) bs)).
Proof.
  intros Hsb fuel. induction fuel as [| f IH]; intros c bs c' Hr Hd Hp' i col t n Hb Ht Hn.
  - simpl in Hd. injection Hd as <- <-. rewrite Hp'. reflexivity.
  - cbn [drain] in Hd. unfold bind at 1 in Hd.
    destruct (readImpl s c) as [[b | e] c1] eqn:Hrun; [| discriminate].
    assert (Hc : pending c <> [] ->
              exists pre col', pending c = pre ++ pending c1 /\ nth_error b i = Some col' /\
                convert_column t n [] pre = Ok (column col') /\ b <> []).
    { intros Hp. destruct (readImpl_trace s c (Ok b) c1 Hr Hp Hrun)
        as [pre [Hpre [Hl [Hcols _]]]].
      destruct (Hcols i col t n Hb Ht Hn) as [col' [H1 [_ [_ H4]]]].
      exists pre, col'. split; [exact Hpre |]. split; [exact H1 |]. split; [exact H4 |].
      destruct b; [destruct i; discriminate | discriminate]. }
    destruct b as [| b0 bt].
    + unfold ret in Hd. injection Hd as <- <-.
      destruct (pending c) eqn:E; [reflexivity |].
      destruct (Hc ltac:(discriminate)) as [pre [col' [_ [_ [_ Hne]]]]]. congruence.
    + unfold bind in Hd.
      destruct (drain f s c1) as [[bs' | e] c2] eqn:Hd'; [| discriminate].
      unfold ret in Hd. injection Hd as <- <-.
      pose proof (IH c1 bs' c2 (reachable_step s c _ c1 Hr Hrun) Hd' Hp' i col t n Hb Ht Hn) as Hrest.
      destruct (pending c) as [| r0 rs] eqn:E.
      * destruct c as [p l]; simpl in E; subst p.
        rewrite readImpl_exhausted in Hrun. discriminate.
      * destruct (Hc ltac:(discriminate)) as [pre [col' [Hpre [Hnth [Hconv _]]]]].
        rewrite Hpre, convert_column_app, Hconv, convert_column_shift, Hrest.
        assert (Hat : column_at (b0 :: bt) i = column col') by (unfold column_at; rewrite Hnth; reflexivity).
        cbn [map List.concat]. rewrite Hat. reflexivity.
Qed.

Lemma drain_concatenates_records_witness :
  convert_column value_type_t.String "name" []
    (pending (mkCursor [[("id"%string, VInt 1); ("name"%string, VString "a")];
                        [("name"%string, VString "b")]; [("id"%string, VInt 3)]] [OpMore]))
  = Ok (List.concat (map (fun b => column_at b 1)
       [[mkColumn "id" DataTypeUInt32 [CUInt32 1; CUInt32 0];
         mkColumn "name" DataTypeString [CString "a"; CString "b"]];
        [mkColumn "id" DataTypeUInt32 [CUInt32 3]; mkColumn "name" DataTypeString [CString ""]]])).
Proof.
  apply (drain_concatenates_records
    (mkStream [mkColumn "id" DataTypeUInt32 []; mkColumn "name" DataTypeString []] 2
       [value_type_t.UInt32; value_type_t.String] ["id"; "name"]%string)
    ltac:(discriminate) 4
    (mkCursor [[("id"%string, VInt 1); ("name"%string, VString "a")];
               [("name"%string, VString "b")]; [("id"%string, VInt 3)]] [OpMore])
    _ (mkCursor [] [OpMore; OpMore; OpMore; OpNext; OpMore; OpNext; OpMore; OpMore;
                    OpNext; OpMore; OpMore])
    ltac:(apply (reachable_init [mkColumn "id" DataTypeUInt32 []; mkColumn "name" DataTypeString []] 2
             (mkCursor [[("id"%string, VInt 1); ("name"%string, VString "a")];
                        [("name"%string, VString "b")]; [("id"%string, VInt 3)]] []));
          vm_compute; reflexivity)
    ltac:(vm_compute; reflexivity) eq_refl 1 (mkColumn "name" DataTypeString [])).
  - reflexivity.
  - reflexivity.
  - reflexivity.
Defined.
